(** * generate-picture-bot: a shallow embedding of [bot.py]

    The bot receives a text message, optionally rewrites it through a remote
    text-completion model, submits an image-generation task and polls it until
    it ends or 180 seconds have gone by.

    Python strings are sequences of Unicode code points, effects are recorded
    as a trace of events, and every remote collaborator (the completion model,
    the image service, the chat) is an oracle that answers from the history of
    events so far. *)

From Stdlib Require Import String Ascii.
From Stdlib Require Import List ZArith NArith Bool Lia.
Import ListNotations.

Set Implicit Arguments.

(* ================================================================== *)
(** ** Python strings *)

Local Open Scope N_scope.

(** A [str] is a list of code points. *)
Definition pystr := list N.

(** An ASCII literal of the source. *)
Definition lit (s : string) : pystr := map N_of_ascii (list_ascii_of_string s).

Fixpoint str_eqb (a b : pystr) : bool :=
  match a, b with
  | [], [] => true
  | x :: a', y :: b' => N.eqb x y && str_eqb a' b'
  | _, _ => false
  end.

(** [a != b] where [b] may be [None]. *)
Definition opt_str_eqb (a b : option pystr) : bool :=
  match a, b with
  | None, None => true
  | Some x, Some y => str_eqb x y
  | _, _ => false
  end.

(** [str.isspace] on one code point: the white space of the Unicode
    database, as CPython's [str.strip()] uses it. *)
Definition py_isspace (c : N) : bool :=
  ((0x09 <=? c) && (c <=? 0x0d)) || ((0x1c <=? c) && (c <=? 0x20))
  || (c =? 0x85) || (c =? 0xa0) || (c =? 0x1680)
  || ((0x2000 <=? c) && (c <=? 0x200a))
  || (c =? 0x2028) || (c =? 0x2029) || (c =? 0x202f) || (c =? 0x205f)
  || (c =? 0x3000).

Fixpoint lstrip (s : pystr) : pystr :=
  match s with
  | c :: s' => if py_isspace c then lstrip s' else s
  | [] => []
  end.

(** [s.strip()] *)
Definition strip (s : pystr) : pystr := rev (lstrip (rev (lstrip s))).

(** [s.startswith(p)] *)
Fixpoint startswith (s p : pystr) {struct p} : bool :=
  match p, s with
  | [], _ => true
  | x :: p', y :: s' => N.eqb x y && startswith s' p'
  | _ :: _, [] => false
  end.

(** [s.replace(c, '')] for a one-character [c]. *)
Definition remove_char (c : N) (s : pystr) : pystr :=
  filter (fun x => negb (N.eqb x c)) s.

(** [not s] *)
Definition is_empty (s : pystr) : bool :=
  match s with [] => true | _ => false end.

(** [sub in s] *)
Definition substring (sub s : pystr) : Prop :=
  exists pre post, s = pre ++ sub ++ post.

(* ================================================================== *)
(** ** Language detection *)

(** [is_chinese], lines 30-35. *)
Fixpoint is_chinese (text : pystr) : bool :=
  match text with
  | [] => false
  | char :: rest =>
      if (0x4e00 <=? char) && (char <=? 0x9fff) then true else is_chinese rest
  end.

Local Close Scope N_scope.
Local Open Scope Z_scope.

(* ================================================================== *)
(** ** Exceptions, remote answers, events *)

(** The exceptions ([Exception] and below) that the code meets. *)
Inductive exn :=
| IndexError                 (* list index out of range *)
| KeyError (key : string)    (* a missing dict key *)
| AttributeError             (* a method called on None *)
| RemoteError (msg : pystr). (* raised by a collaborator: transport, protocol *)

(** What a call to a collaborator does: raise, or answer. *)
Inductive answer (A : Type) :=
| Raises (e : exn)
| Answers (a : A).
Arguments Raises {A} e.
Arguments Answers {A} a.

(** The response of [Generation.call]: [output['text']] is a string, or
    [None] when the answer carries no text. *)
Record qwen_response := {
  gen_status_code : Z;
  gen_text : option pystr
}.

(** The response of [ImageSynthesis.async_call]: [output['task_id']] is a
    string, or [None] when the answer carries no task id. *)
Record submit_response := {
  sub_status_code : Z;
  sub_task_id : option pystr
}.

(** The response of [ImageSynthesis.fetch]: [output] is a dict where
    [task_status], [results], the [url] of a result and [message] may each be
    missing. *)
Record fetch_response := {
  status_code : Z;
  task_status : option pystr;
  results : option (list (option pystr));
  message : option pystr
}.

(** The texts sent with [reply_text]. *)
Inductive Msg :=
| MsgSlowQueue                      (* line 115, the queue is long *)
| MsgTimeout                        (* line 128, generation timed out *)
| MsgUnderstanding (text : pystr)   (* line 152 *)
| MsgGeneratingCN                   (* line 155 *)
| MsgGeneratingEN (text : pystr)    (* line 158 *)
| MsgGenerationFailed               (* line 164 *)
| MsgSendFailed (e : exn).          (* line 187 *)

(** The captions of [reply_photo], lines 178 and 180. *)
Inductive Caption :=
| CaptionCN (text scene : pystr)
| CaptionEN (text : pystr).

(** The log records, one constructor per [logging] call. *)
Inductive LogEntry :=
| LogQwenError                                   (* line 64 *)
| LogQwenException (e : exn)                     (* line 67 *)
| LogImageApiError                               (* line 81 *)
| LogTaskCreated (task_id : option pystr)        (* line 85 *)
| LogStatusException (e : exn)                   (* line 100 *)
| LogStatusError                                 (* line 104 *)
| LogStatus (task_id : option pystr) (task_status : pystr) (* line 110 *)
| LogTaskFailed (error_msg : pystr)              (* line 124 *)
| LogTimeout (last_status : option pystr)        (* line 127 *)
| LogImageException (e : exn)                    (* line 132 *)
| LogEnhanced (prompt : pystr)                   (* line 154 *)
| LogDirect (prompt : pystr)                     (* line 160 *)
| LogImageSent (text : pystr)                    (* line 184 *)
| LogSendException (e : exn).                    (* line 186 *)

(** The visible effects. A task id is the value of [output['task_id']], a
    string or [None]. [EvFetch] also notes the value of [elapsed] at the
    call; [EvReply] and [EvPhoto] note whether the send went through. *)
Inductive Event :=
| EvGeneration (user_prompt : pystr)
| EvSubmit (prompt : pystr)
| EvSleep (seconds : Z)
| EvFetch (task_id : option pystr) (at_elapsed : Z)
| EvReply (m : Msg) (delivered : bool)
| EvDownload (url : pystr)
| EvPhoto (c : Caption) (delivered : bool)
| EvLog (l : LogEntry)
| EvRemove.

Definition History := list Event.

(** The collaborators. Each answers from its arguments and from all that has
    happened so far. *)
Record World := {
  generation_call : pystr -> History -> answer qwen_response;
  async_call : pystr -> History -> answer submit_response;
  fetch : option pystr -> History -> answer fetch_response;
  reply_text : Msg -> History -> option exn;
  download : pystr -> History -> option exn;
  reply_photo : Caption -> History -> option exn;
  remove_file : History -> option exn
}.

(* ================================================================== *)
(** ** Observations on a trace *)

Definition is_fetch (e : Event) : bool :=
  match e with EvFetch _ _ => true | _ => false end.

Definition is_sleep (e : Event) : bool :=
  match e with EvSleep _ => true | _ => false end.

Definition is_reply (e : Event) : bool :=
  match e with EvReply _ _ => true | EvPhoto _ _ => true | _ => false end.

(** Number of calls to [ImageSynthesis.fetch]. *)
Definition fetches (tr : list Event) : nat := length (filter is_fetch tr).

(** Number of calls to [asyncio.sleep]. *)
Definition sleeps (tr : list Event) : nat := length (filter is_sleep tr).

(** The value of [elapsed] at each fetch, in order. *)
Fixpoint poll_times (tr : list Event) : list Z :=
  match tr with
  | [] => []
  | EvFetch _ t :: tr' => t :: poll_times tr'
  | _ :: tr' => poll_times tr'
  end.

(** The outcome of each attempt to send the slow-queue notice, in order. *)
Fixpoint slow_sends (tr : list Event) : list bool :=
  match tr with
  | [] => []
  | EvReply MsgSlowQueue ok :: tr' => ok :: slow_sends tr'
  | _ :: tr' => slow_sends tr'
  end.

(** The statuses written by the status log of line 110, in order. *)
Fixpoint status_logs (tr : list Event) : list pystr :=
  match tr with
  | [] => []
  | EvLog (LogStatus _ s) :: tr' => s :: status_logs tr'
  | _ :: tr' => status_logs tr'
  end.

(** The log records that end a generation without an image. *)
Definition is_failure_log (e : Event) : bool :=
  match e with
  | EvLog LogImageApiError => true
  | EvLog (LogTaskFailed _) => true
  | EvLog (LogTimeout _) => true
  | EvLog (LogImageException _) => true
  | _ => false
  end.

Definition is_task_failed_log (e : Event) : bool :=
  match e with EvLog (LogTaskFailed _) => true | _ => false end.

(** The last status noted by each timeout record of line 127, in order. *)
Fixpoint timeout_logs (tr : list Event) : list (option pystr) :=
  match tr with
  | [] => []
  | EvLog (LogTimeout s) :: tr' => s :: timeout_logs tr'
  | _ :: tr' => timeout_logs tr'
  end.

Definition is_qwen_failure_log (e : Event) : bool :=
  match e with
  | EvLog LogQwenError => true
  | EvLog (LogQwenException _) => true
  | _ => false
  end.

Definition is_generation (e : Event) : bool :=
  match e with EvGeneration _ => true | _ => false end.

(* ================================================================== *)
(** ** The effect monad *)

(** How a piece of code ends: with a value, with an exception, or (in the
    model only) with the loop's fuel used up. *)
Inductive outcome (A : Type) :=
| Ret (a : A)
| Exc (e : exn)
| NoFuel.
Arguments Ret {A} a.
Arguments Exc {A} e.
Arguments NoFuel {A}.

(** A computation reads the history and yields an outcome and the events it
    added. *)
Definition M (A : Type) := History -> outcome A * list Event.

Definition ret {A} (a : A) : M A := fun _ => (Ret a, []).

Definition bind {A B} (m : M A) (f : A -> M B) : M B :=
  fun h =>
    match m h with
    | (Ret a, e1) => let (r, e2) := f a (h ++ e1) in (r, e1 ++ e2)
    | (Exc e, e1) => (Exc e, e1)
    | (NoFuel, e1) => (NoFuel, e1)
    end.

Definition raise {A} (e : exn) : M A := fun _ => (Exc e, []).

Definition emit (ev : Event) : M unit := fun _ => (Ret tt, [ev]).

(** [try: m except Exception as e: handler e] *)
Definition try_except {A} (m : M A) (handler : exn -> M A) : M A :=
  fun h =>
    match m h with
    | (Exc e, e1) => let (r, e2) := handler e (h ++ e1) in (r, e1 ++ e2)
    | other => other
    end.

Notation "x <- c1 ;; c2" := (bind c1 (fun x => c2))
  (at level 61, c1 at next level, right associativity).
Notation "c1 ;; c2" := (bind c1 (fun _ => c2))
  (at level 61, right associativity).

(** A call to a collaborator: one event, then its answer. *)
Definition call {A} (ev : Event) (a : History -> answer A) : M A :=
  fun h =>
    match a h with
    | Raises e => (Exc e, [ev])
    | Answers r => (Ret r, [ev])
    end.

(** A send to the chat: the event notes whether it went through. *)
Definition send (ev : bool -> Event) (a : History -> option exn) : M unit :=
  fun h =>
    match a h with
    | Some e => (Exc e, [ev false])
    | None => (Ret tt, [ev true])
    end.

Definition log (l : LogEntry) : M unit := emit (EvLog l).

(** [v.strip()] where [v] may be [None]. *)
Definition strip_of (v : option pystr) : M pystr :=
  match v with
  | Some s => ret (strip s)
  | None => raise AttributeError
  end.

(** [d.get(key, default)] *)
Definition get_default {A} (v : option A) (default : A) : A :=
  match v with
  | Some a => a
  | None => default
  end.

(** [d[key]] on a dict where the key may be missing. *)
Definition subscript {A} (key : string) (v : option A) : M A :=
  match v with
  | Some a => ret a
  | None => raise (KeyError key)
  end.

(* ================================================================== *)
(** ** The bot *)

(** Lines 87-88. *)
Definition max_wait : Z := 180.
Definition poll_interval : Z := 4.

(** The quote character that line 62 removes. *)
Definition quote : N := 0x22%N.

(** The f-string of line 50. *)
Definition user_prompt_of (user_phrase : pystr) : pystr :=
  [0x77ed; 0x8bed; 0xff1a]%N ++ user_phrase.

(** The f-string of line 65, returned on a status other than 200. *)
Definition fallback_non_ok (user_phrase : pystr) : pystr :=
  [0x6210; 0x90fd; 0x573a; 0x666f; 0x4e2d; 0xff0c; 0x4eba; 0x4eec; 0x6b63;
   0x5728; 0x4f53; 0x9a8c; 0x27]%N
  ++ user_phrase
  ++ [0x27; 0xff0c; 0x771f; 0x5b9e; 0x751f; 0x6d3b; 0xff0c; 0x7ec6; 0x8282;
      0x4e30; 0x5bcc]%N.

(** The f-string of line 68, returned on an exception. *)
Definition fallback_exception (user_phrase : pystr) : pystr :=
  [0x6210; 0x90fd; 0x8857; 0x5934; 0xff0c; 0x5e74; 0x8f7b; 0x4eba; 0x6b63;
   0x5728; 0x4f53; 0x73b0; 0x27]%N
  ++ user_phrase
  ++ [0x27; 0x7684; 0x6982; 0x5ff5; 0xff0c; 0x81ea; 0x7136; 0x5149; 0x7ebf;
      0xff0c; 0x65e5; 0x5e38; 0x73af; 0x5883]%N.

(** The local variables of the polling loop, lines 89-91. *)
Record JobState := {
  elapsed : Z;
  last_status : option pystr;
  notification_sent : bool
}.

(** Their values before the loop. *)
Definition job_start : JobState :=
  {| elapsed := 0; last_status := None; notification_sent := false |}.

(** How one turn of the loop body ends: on to the next turn, or [return]. *)
Inductive ctl :=
| Continue (st : JobState)
| Return (v : option pystr).

(** How the [while] ends: a [return] inside it, or its condition false. *)
Inductive loop_exit :=
| LoopReturn (v : option pystr)
| LoopEnd (st : JobState).

(** [not img_url] on an [Optional[str]]. *)
Definition falsy (v : option pystr) : bool :=
  match v with
  | None => true
  | Some u => is_empty u
  end.

Section Bot.

Variable w : World.

(** [rewrite_prompt_with_qwen], lines 38-68. *)
Definition rewrite_prompt_with_qwen (user_phrase : pystr) : M pystr :=
  let user_prompt := user_prompt_of user_phrase in
  try_except
    (response <- call (EvGeneration user_prompt)
                      (generation_call w user_prompt) ;;
     if gen_status_code response =? 200 then
       rewritten <- strip_of (gen_text response) ;;
       ret (remove_char quote (remove_char quote (remove_char quote rewritten)))
     else
       log LogQwenError ;;
       ret (fallback_non_ok user_phrase))
    (fun e =>
       log (LogQwenException e) ;;
       ret (fallback_exception user_phrase)).

(** [status_resp.output['results'][0]['url']], line 121. *)
Definition first_result_url (status_resp : fetch_response) : M pystr :=
  rs <- subscript "results" (results status_resp) ;;
  match rs with
  | [] => raise IndexError
  | item :: _ => subscript "url" item
  end.

(** One turn of the [while] of lines 93-125. *)
Definition poll_body (task_id : option pystr) (st : JobState) : M ctl :=
  emit (EvSleep poll_interval) ;;
  let elapsed' := elapsed st + poll_interval in
  let st_continue := {| elapsed := elapsed';
                        last_status := last_status st;
                        notification_sent := notification_sent st |} in
  fetched <- try_except
               (r <- call (EvFetch task_id elapsed') (fetch w task_id) ;;
                ret (Some r))
               (fun e => log (LogStatusException e) ;; ret None) ;;
  match fetched with
  | None => ret (Continue st_continue)
  | Some status_resp =>
      if negb (status_code status_resp =? 200) then
        log LogStatusError ;;
        ret (Continue st_continue)
      else
        let task_status :=
          get_default (task_status status_resp) (lit "UNKNOWN") in
        last_status' <-
          (if negb (opt_str_eqb (Some task_status) (last_status st)) then
             log (LogStatus task_id task_status) ;;
             ret (Some task_status)
           else ret (last_status st)) ;;
        notification_sent' <-
          (if (30 <=? elapsed') && negb (notification_sent st)
              && str_eqb task_status (lit "PENDING") then
             try_except
               (send (EvReply MsgSlowQueue) (reply_text w MsgSlowQueue) ;;
                ret true)
               (fun _ => ret (notification_sent st))
           else ret (notification_sent st)) ;;
        if str_eqb task_status (lit "SUCCEEDED") then
          url <- first_result_url status_resp ;;
          ret (Return (Some url))
        else if str_eqb task_status (lit "FAILED") then
          let error_msg :=
            get_default (message status_resp) (lit "Unknown error") in
          log (LogTaskFailed error_msg) ;;
          ret (Return None)
        else
          ret (Continue {| elapsed := elapsed';
                           last_status := last_status';
                           notification_sent := notification_sent' |})
  end.

(** The [while elapsed < max_wait] of line 93. [fuel] bounds the number of
    turns: each turn adds [poll_interval] to [elapsed], so the [max_wait]
    turns that [generate_image_from_prompt] allows are never used up
    ([poll_loop_logs] below). *)
Fixpoint poll_loop (fuel : nat) (task_id : option pystr) (st : JobState)
  : M loop_exit :=
  if elapsed st <? max_wait then
    match fuel with
    | O => fun _ => (NoFuel, [])
    | S fuel' =>
        c <- poll_body task_id st ;;
        match c with
        | Continue st' => poll_loop fuel' task_id st'
        | Return v => ret (LoopReturn v)
        end
    end
  else ret (LoopEnd st).

(** [generate_image_from_prompt], lines 71-133. *)
Definition generate_image_from_prompt (prompt : pystr) : M (option pystr) :=
  try_except
    (resp <- call (EvSubmit prompt) (async_call w prompt) ;;
     if negb (sub_status_code resp =? 200) then
       log LogImageApiError ;;
       ret None
     else
       let task_id := sub_task_id resp in
       log (LogTaskCreated task_id) ;;
       x <- poll_loop (Z.to_nat max_wait) task_id job_start ;;
       match x with
       | LoopReturn v => ret v
       | LoopEnd st =>
           log (LogTimeout (last_status st)) ;;
           send (EvReply MsgTimeout) (reply_text w MsgTimeout) ;;
           ret None
       end)
    (fun e =>
       log (LogImageException e) ;;
       ret None).

(** The choice of the prompt in [handle_message], lines 149-160. *)
Definition enhanced_prompt_for (text : pystr) : M pystr :=
  if is_chinese text then
    send (EvReply (MsgUnderstanding text))
         (reply_text w (MsgUnderstanding text)) ;;
    enhanced_prompt <- rewrite_prompt_with_qwen text ;;
    log (LogEnhanced enhanced_prompt) ;;
    send (EvReply MsgGeneratingCN) (reply_text w MsgGeneratingCN) ;;
    ret enhanced_prompt
  else
    send (EvReply (MsgGeneratingEN text))
         (reply_text w (MsgGeneratingEN text)) ;;
    log (LogDirect text) ;;
    ret text.

(** The delivery of the image in [handle_message], lines 167-187. The
    download to a temporary file and the reopening of that file (lines
    168-176) are one call to the [download] collaborator; the removal of the
    file (line 183), after the photo, is one call to [remove_file]. *)
Definition deliver (text enhanced_prompt img_url : pystr) : M unit :=
  try_except
    (send (fun _ => EvDownload img_url) (download w img_url) ;;
     let caption :=
       if is_chinese text then CaptionCN text (firstn 200 enhanced_prompt)
       else CaptionEN text in
     send (EvPhoto caption) (reply_photo w caption) ;;
     send (fun _ => EvRemove) (remove_file w) ;;
     log (LogImageSent text))
    (fun e =>
       log (LogSendException e) ;;
       send (EvReply (MsgSendFailed e)) (reply_text w (MsgSendFailed e))).

(** [handle_message], lines 144-187, on the text of the incoming message. *)
Definition handle_message (message_text : pystr) : M unit :=
  let text := strip message_text in
  if is_empty text || startswith text (lit "/") then ret tt
  else
    enhanced_prompt <- enhanced_prompt_for text ;;
    img_url <- generate_image_from_prompt enhanced_prompt ;;
    if falsy img_url then
      send (EvReply MsgGenerationFailed) (reply_text w MsgGenerationFailed)
    else
      match img_url with
      | Some url => deliver text enhanced_prompt url
      | None => ret tt
      end.

End Bot.

(** A status fetch that ends the polling: status 200 and a task status of
    [SUCCEEDED] or [FAILED] (lines 103, 120, 122). *)
Definition terminal (a : answer fetch_response) : bool :=
  match a with
  | Raises _ => false
  | Answers r =>
      (status_code r =? 200)
      && (str_eqb (get_default (task_status r) (lit "UNKNOWN")) (lit "SUCCEEDED")
          || str_eqb (get_default (task_status r) (lit "UNKNOWN")) (lit "FAILED"))
  end.

(** A submission that fails: an exception, or a status other than 200
    (lines 80 and 131). *)
Definition submission_failed (a : answer submit_response) : bool :=
  match a with
  | Raises _ => true
  | Answers resp => negb (sub_status_code resp =? 200)
  end.

(** A completion call that fails: an exception, or a status other than 200
    (lines 63 and 66). *)
Definition rewrite_failed (a : answer qwen_response) : bool :=
  match a with
  | Raises _ => true
  | Answers response => negb (gen_status_code response =? 200)
  end.

(** A status-200 fetch that reports the task status [s]. *)
Definition observes (s : pystr) (a : answer fetch_response) : Prop :=
  match a with
  | Raises _ => False
  | Answers r => status_code r = 200 /\ task_status r = Some s
  end.

(** A status-200 fetch that reports [SUCCEEDED] with the given results. *)
Definition succeeds_with (rs : list (option pystr))
    (a : answer fetch_response) : Prop :=
  match a with
  | Raises _ => False
  | Answers r =>
      status_code r = 200 /\ task_status r = Some (lit "SUCCEEDED")
      /\ results r = Some rs
  end.

(** The statuses of [obs] that differ from the one before them, [last]
    standing before the first. *)
Fixpoint changes (last : option pystr) (obs : list pystr) : list pystr :=
  match obs with
  | [] => []
  | s :: obs' =>
      if opt_str_eqb (Some s) last then changes last obs'
      else s :: changes (Some s) obs'
  end.

(* ================================================================== *)
(** ** Scripted collaborators *)

(** A status-200 answer of [fetch] with the given status and results. *)
Definition fetched (s : string) (rs : list (option pystr))
  : answer fetch_response :=
  Answers {| status_code := 200; task_status := Some (lit s);
             results := Some rs; message := None |}.

(** A status-200 answer of [async_call] with task id ["t1"]. *)
Definition submitted : answer submit_response :=
  Answers {| sub_status_code := 200; sub_task_id := Some (lit "t1") |}.

(** Number of sends to the chat so far. *)
Definition replies (tr : list Event) : nat := List.length (filter is_reply tr).

(** A world that plays a script: the [k]-th fetch gets the [k]-th entry of
    [script] ([dflt] once the script is over), the [k]-th send to the chat
    fails when [chat k] says so, and the completion model is down. *)
Definition scripted (sub : answer submit_response)
    (script : list (answer fetch_response)) (dflt : answer fetch_response)
    (chat : nat -> option exn) : World :=
  {| generation_call := fun _ _ => Raises (RemoteError (lit "connection reset"));
     async_call := fun _ _ => sub;
     fetch := fun _ h => nth (fetches h) script dflt;
     reply_text := fun _ h => chat (replies h);
     download := fun _ _ => None;
     reply_photo := fun _ _ => None;
     remove_file := fun _ => None |}.

(** A chat where every send goes through. *)
Definition chat_up : nat -> option exn := fun _ => None.

(** The backend leaves the task [PENDING] for ever; the chat works. *)
Definition w_pending : World :=
  scripted submitted [] (fetched "PENDING" []) chat_up.

(** As [w_pending], but the first send to the chat is lost. *)
Definition w_first_send_lost : World :=
  scripted submitted [] (fetched "PENDING" [])
    (fun k => if Nat.eqb k 0 then Some (RemoteError (lit "chat closed"))
              else None).


(** The backend reports PENDING, PENDING, RUNNING, SUCCEEDED. *)
Definition w_four_statuses : World :=
  scripted submitted
    [fetched "PENDING" []; fetched "PENDING" []; fetched "RUNNING" [];
     fetched "SUCCEEDED" [Some (lit "https://img/1.png")]]
    (fetched "PENDING" []) chat_up.

(** The backend reports [SUCCEEDED] at the second poll, without results. *)
Definition w_empty_results : World :=
  scripted submitted [fetched "RUNNING" []; fetched "SUCCEEDED" []]
    (fetched "PENDING" []) chat_up.

(** The backend misses one fetch and reports [SUCCEEDED] at the third. *)
Definition w_third_poll : World :=
  scripted submitted
    [fetched "PENDING" []; Raises (RemoteError (lit "timeout"));
     fetched "SUCCEEDED" [Some (lit "https://img/1.png"); None]]
    (fetched "PENDING" []) chat_up.

(** The submission is answered with status 429. *)
Definition w_rejected : World :=
  scripted (Answers {| sub_status_code := 429; sub_task_id := None |})
    [] (fetched "PENDING" []) chat_up.

(* ================================================================== *)
(** ** Further observations and scripted collaborators *)

Definition is_submit (e : Event) : bool :=
  match e with EvSubmit _ => true | _ => false end.

Definition is_download (e : Event) : bool :=
  match e with EvDownload _ => true | _ => false end.

Definition is_photo (e : Event) : bool :=
  match e with EvPhoto _ _ => true | _ => false end.

Definition is_timeout_reply (e : Event) : bool :=
  match e with EvReply MsgTimeout _ => true | _ => false end.

Definition is_failed_reply (e : Event) : bool :=
  match e with EvReply MsgGenerationFailed _ => true | _ => false end.

(** The effects of the loop body, lines 94-125, for the task [task_id]. *)
Definition is_polling_event (task_id : option pystr) (e : Event) : bool :=
  match e with
  | EvSleep seconds => seconds =? poll_interval
  | EvFetch id _ => opt_str_eqb id task_id
  | EvReply MsgSlowQueue _ => true
  | EvLog (LogStatusException _) => true
  | EvLog LogStatusError => true
  | EvLog (LogStatus id _) => opt_str_eqb id task_id
  | EvLog (LogTaskFailed _) => true
  | _ => false
  end.

(** The effects that may follow the submission in a generation whose task
    is [task_id]. *)
Definition is_generation_event (task_id : option pystr) (e : Event) : bool :=
  is_polling_event task_id e
  || match e with
     | EvLog LogImageApiError => true
     | EvLog (LogTaskCreated id) => opt_str_eqb id task_id
     | EvLog (LogTimeout _) => true
     | EvLog (LogImageException _) => true
     | EvReply MsgTimeout _ => true
     | _ => false
     end.

(** For each send of the slow-queue notice, the value of [elapsed] at the
    fetch before it ([last] when there is none). *)
Fixpoint notice_times (last : Z) (tr : list Event) : list Z :=
  match tr with
  | [] => []
  | EvFetch _ t :: tr' => notice_times t tr'
  | EvReply MsgSlowQueue _ :: tr' => last :: notice_times last tr'
  | _ :: tr' => notice_times last tr'
  end.

(** A status fetch that is lost: an exception, or a status other than 200
    (lines 99 and 103). *)
Definition fetch_failed (a : answer fetch_response) : bool :=
  match a with
  | Raises _ => true
  | Answers r => negb (status_code r =? 200)
  end.

(** A status-200 fetch that reports [FAILED], with the message of line 123. *)
Definition fails_with (error_msg : pystr) (a : answer fetch_response) : Prop :=
  match a with
  | Raises _ => False
  | Answers r =>
      status_code r = 200 /\ task_status r = Some (lit "FAILED")
      /\ get_default (message r) (lit "Unknown error") = error_msg
  end.

(** [w] with another completion model. *)
Definition with_generation (g : answer qwen_response) (w : World) : World :=
  {| generation_call := fun _ _ => g;
     async_call := async_call w;
     fetch := fetch w;
     reply_text := reply_text w;
     download := download w;
     reply_photo := reply_photo w;
     remove_file := remove_file w |}.

(** [w] with a download that raises. *)
Definition with_download_down (w : World) : World :=
  {| generation_call := generation_call w;
     async_call := async_call w;
     fetch := fetch w;
     reply_text := reply_text w;
     download := fun _ _ => Some (RemoteError (lit "404"));
     reply_photo := reply_photo w;
     remove_file := remove_file w |}.

(** The backend cannot be reached after the submission. *)
Definition w_unreachable : World :=
  scripted submitted [] (Raises (RemoteError (lit "timeout"))) chat_up.

(** The backend reports [FAILED] with a message at the second poll. *)
Definition w_failed_second : World :=
  scripted submitted
    [fetched "RUNNING" [];
     Answers {| status_code := 200; task_status := Some (lit "FAILED");
                results := None; message := Some (lit "unsafe prompt") |}]
    (fetched "PENDING" []) chat_up.

(** The backend reports [SUCCEEDED] at the first poll. *)
Definition w_first_poll : World :=
  scripted submitted [fetched "SUCCEEDED" [Some (lit "https://img/1.png")]]
    (fetched "PENDING" []) chat_up.

(** The backend reports [SUCCEEDED] at the first poll, with an empty URL. *)
Definition w_empty_url : World :=
  scripted submitted [fetched "SUCCEEDED" [Some []]]
    (fetched "PENDING" []) chat_up.

(** The chat is closed. *)
Definition w_chat_down : World :=
  scripted submitted [] (fetched "PENDING" [])
    (fun _ => Some (RemoteError (lit "chat closed"))).

(** The effects of the choice of the prompt, lines 149-160. *)
Definition is_prompt_event (e : Event) : bool :=
  match e with
  | EvReply (MsgUnderstanding _) _ => true
  | EvReply MsgGeneratingCN _ => true
  | EvReply (MsgGeneratingEN _) _ => true
  | EvGeneration _ => true
  | EvLog LogQwenError => true
  | EvLog (LogQwenException _) => true
  | EvLog (LogEnhanced _) => true
  | EvLog (LogDirect _) => true
  | _ => false
  end.

(** The message that [handle_message] sends first, lines 152 and 158. *)
Definition first_message (text : pystr) : Msg :=
  if is_chinese text then MsgUnderstanding text else MsgGeneratingEN text.

(** The completion model answers 200 with a quoted text. *)
Definition w_quoted : World :=
  with_generation
    (Answers {| gen_status_code := 200;
                gen_text := Some (lit "  " ++ [quote] ++ lit "tea" ++ [quote]
                                  ++ lit " house  ") |})
    w_first_poll.

(** The completion model answers 200 with [None] for a text. *)
Definition w_no_text : World :=
  with_generation
    (Answers {| gen_status_code := 200; gen_text := None |})
    w_first_poll.

(** The image is generated at the first poll but cannot be downloaded. *)
Definition w_download_down : World := with_download_down w_first_poll.

(** [w] with a removal of the temporary file that raises. *)
Definition with_remove_down (w : World) : World :=
  {| generation_call := generation_call w;
     async_call := async_call w;
     fetch := fetch w;
     reply_text := reply_text w;
     download := download w;
     reply_photo := reply_photo w;
     remove_file := fun _ => Some (RemoteError (lit "permission denied")) |}.

(** The image is generated at the first poll, downloaded and sent, but the
    temporary file cannot be removed. *)
Definition w_remove_down : World := with_remove_down w_first_poll.

(* ================================================================== *)
(** * Properties *)

(** ** Strings *)

Lemma str_eqb_eq (a b : pystr) : str_eqb a b = true <-> a = b.
Proof.
  revert b; induction a as [|x a IH]; intros [|y b]; simpl; split;
    try congruence; try reflexivity.
  - intros H. apply andb_true_iff in H as [Hx Hab].
    apply N.eqb_eq in Hx. apply IH in Hab. congruence.
  - intros H. injection H as -> ->.
    rewrite N.eqb_refl. apply IH. reflexivity.
Qed.

#[local] Arguments lit : simpl never.
#[local] Arguments str_eqb : simpl never.
#[local] Arguments opt_str_eqb : simpl never.
#[local] Arguments get_default : simpl never.

Lemma str_eqb_refl (a : pystr) : str_eqb a a = true.
Proof. apply str_eqb_eq. reflexivity. Qed.

Lemma opt_str_eqb_eq (a b : option pystr) : opt_str_eqb a b = true <-> a = b.
Proof.
  destruct a as [x|], b as [y|]; unfold opt_str_eqb;
    try (split; congruence).
  rewrite str_eqb_eq. split; congruence.
Qed.

Lemma opt_str_eqb_refl (a : option pystr) : opt_str_eqb a a = true.
Proof. apply opt_str_eqb_eq. reflexivity. Qed.

Lemma substring_middle (pre s post : pystr) : substring s (pre ++ s ++ post).
Proof. exists pre, post. reflexivity. Qed.

(** ** The monad *)

(** The events of [m ;; f] begin with the events of [m]. *)
Lemma bind_events_prefix {A B} (m : M A) (f : A -> M B) (h : History) :
  exists rest, snd (bind m f h) = snd (m h) ++ rest.
Proof.
  unfold bind. destruct (m h) as [[a|e|] e1]; simpl.
  - destruct (f a (h ++ e1)) as [r e2]. simpl. eauto.
  - exists []. rewrite app_nil_r. reflexivity.
  - exists []. rewrite app_nil_r. reflexivity.
Qed.

(** When [m] returns, the events of [m ;; f] are those of [m], then those
    of [f]. *)
Lemma bind_events {A B} (m : M A) (f : A -> M B) (h : History) a e1 :
  m h = (Ret a, e1) ->
  snd (bind m f h) = e1 ++ snd (f a (h ++ e1)).
Proof.
  unfold bind. intros ->. destruct (f a (h ++ e1)); reflexivity.
Qed.

(** ** Traces *)

Lemma fetches_app (a b : list Event) :
  fetches (a ++ b) = (fetches a + fetches b)%nat.
Proof. unfold fetches. rewrite filter_app, length_app. reflexivity. Qed.

Lemma sleeps_app (a b : list Event) :
  sleeps (a ++ b) = (sleeps a + sleeps b)%nat.
Proof. unfold sleeps. rewrite filter_app, length_app. reflexivity. Qed.

Lemma poll_times_app (a b : list Event) :
  poll_times (a ++ b) = poll_times a ++ poll_times b.
Proof.
  induction a as [|[] a IH]; simpl; rewrite ?IH; reflexivity.
Qed.

Lemma slow_sends_app (a b : list Event) :
  slow_sends (a ++ b) = slow_sends a ++ slow_sends b.
Proof.
  induction a as [|[| | | |[]| | | |] a IH]; simpl; rewrite ?IH; reflexivity.
Qed.

Lemma status_logs_app (a b : list Event) :
  status_logs (a ++ b) = status_logs a ++ status_logs b.
Proof.
  induction a as [|[| | | | | | |[]|] a IH]; simpl; rewrite ?IH; reflexivity.
Qed.

Lemma timeout_logs_app (a b : list Event) :
  timeout_logs (a ++ b) = timeout_logs a ++ timeout_logs b.
Proof.
  induction a as [|[| | | | | | |[]|] a IH]; simpl; rewrite ?IH; reflexivity.
Qed.

Lemma last_cons {A} (x : A) (l : list A) (d : A) :
  last (x :: l) d = last l x.
Proof.
  revert x d; induction l as [|y l IH]; intros x d; [reflexivity|].
  change (last (x :: y :: l) d) with (last (y :: l) d).
  rewrite (IH y d). symmetry. apply IH.
Qed.

Lemma last_app_default {A} (a b : list A) (d : A) :
  last (a ++ b) d = last b (last a d).
Proof.
  revert d; induction a as [|x a IH]; intros d; [reflexivity|].
  rewrite <- app_comm_cons, !last_cons. apply IH.
Qed.

(** ** One turn of the loop *)

(** Splits a goal on [poll_body] along the branches of the loop body. *)
Ltac body_cases w id st h :=
  unfold poll_body, first_result_url, bind, try_except, call, send, log, emit,
    ret, raise, subscript; simpl;
  destruct (fetch w id (h ++ [EvSleep poll_interval])) as [?e|?r] eqn:?Hfetch;
  simpl;
  [ | match goal with
      | |- context [status_code ?r =? 200] =>
          destruct (status_code r =? 200) eqn:?Hcode; simpl;
          [ set (ts := get_default (task_status r) (lit "UNKNOWN")) in *;
            destruct (opt_str_eqb (Some ts) (last_status st)) eqn:?Hsame;
            simpl;
            (destruct ((30 <=? elapsed st + poll_interval)
                       && negb (notification_sent st)
                       && str_eqb ts (lit "PENDING")) eqn:?Hslow; simpl;
             [ match goal with
               | |- context [reply_text w MsgSlowQueue ?h'] =>
                   destruct (reply_text w MsgSlowQueue h') eqn:?Hreply; simpl
               end
             | ]);
            (destruct (str_eqb ts (lit "SUCCEEDED")) eqn:?Hsucc; simpl;
             [ destruct (results r) as [[|[?u|] ?rs]|] eqn:?Hres; simpl
             | destruct (str_eqb ts (lit "FAILED")) eqn:?Hfail; simpl ])
          | ]
      end ].

(** A status cannot be both [PENDING] and [SUCCEEDED] or [FAILED]. *)
Ltac pending_not_terminal :=
  match goal with
  | Hslow : (_ && _ && str_eqb ?ts (lit "PENDING")) = true,
    Hterm : str_eqb ?ts (lit _) = true |- _ =>
      apply andb_true_iff in Hslow as [_ Hslow];
      apply str_eqb_eq in Hslow; rewrite Hslow in Hterm;
      vm_compute in Hterm; discriminate Hterm
  end.

Section Poller.

Variable w : World.

(** Every turn sleeps once and fetches once, at the new value of
    [elapsed]. *)
Lemma poll_body_counts id st h :
  let (c, ev) := poll_body w id st h in
  fetches ev = 1%nat /\ sleeps ev = 1%nat
  /\ poll_times ev = [elapsed st + poll_interval].
Proof.
  body_cases w id st h.
  all: repeat split; reflexivity.
Qed.

(** What a turn logs, by the way it ends. *)
Lemma poll_body_logs id st h :
  let (c, ev) := poll_body w id st h in
  timeout_logs ev = [] /\
  match c with
  | NoFuel => False
  | Exc _ => filter is_failure_log ev = []
  | Ret (Return (Some _)) => filter is_failure_log ev = []
  | Ret (Return None) =>
      exists m, filter is_failure_log ev = [EvLog (LogTaskFailed m)]
  | Ret (Continue st') =>
      filter is_failure_log ev = []
      /\ elapsed st' = elapsed st + poll_interval
      /\ last_status st' = last (map Some (status_logs ev)) (last_status st)
  end.
Proof.
  body_cases w id st h.
  all: repeat split; try reflexivity; eauto.
Qed.

(** The slow-queue notice within a turn: none once the flag is set, at most
    one otherwise, and the flag is set exactly when the send went through;
    a turn that ends the loop sends none. *)
Lemma poll_body_notify id st h :
  let (c, ev) := poll_body w id st h in
  match c with
  | Ret (Continue st') =>
      if notification_sent st
      then notification_sent st' = true /\ slow_sends ev = []
      else (slow_sends ev = [] /\ notification_sent st' = false)
           \/ slow_sends ev = [notification_sent st']
  | _ => slow_sends ev = []
  end.
Proof.
  body_cases w id st h.
  all: try pending_not_terminal.
  all: try reflexivity.
  all: destruct (notification_sent st) eqn:Hflag; simpl; auto.
  all: try (rewrite andb_false_r in Hslow; simpl in Hslow; discriminate).
Qed.

(** A fetch that is not terminal sends the loop into its next turn. *)
Lemma poll_body_nonterminal id st h :
  terminal (fetch w id (h ++ [EvSleep poll_interval])) = false ->
  exists st' ev, poll_body w id st h = (Ret (Continue st'), ev).
Proof.
  unfold terminal. body_cases w id st h; intros Hterm; eauto.
  all: fold ts in Hterm; rewrite ?Hsucc, ?Hfail in Hterm;
    simpl in Hterm; try discriminate.
Qed.

(** A fetch that reports status [s]: the status is logged when it differs
    from the last one, and the loop goes on only if [s] is not terminal. *)
Lemma poll_body_observes id st h s :
  observes s (fetch w id (h ++ [EvSleep poll_interval])) ->
  let (c, ev) := poll_body w id st h in
  status_logs ev = changes (last_status st) [s]
  /\ match c with
     | Ret (Continue st') =>
         last_status st' = Some s
         /\ str_eqb s (lit "SUCCEEDED") = false
         /\ str_eqb s (lit "FAILED") = false
     | _ => True
     end.
Proof.
  unfold observes. body_cases w id st h; try tauto; intros [Hc Hts].
  all: try (rewrite Hc in Hcode; discriminate Hcode).
  all: unfold ts, get_default in *; rewrite Hts in *; simpl;
    rewrite ?Hsame; simpl; auto.
  all: repeat split; auto.
  all: destruct (last_status st) as [s'|]; try discriminate Hsame;
    apply str_eqb_eq in Hsame; congruence.
Qed.

(** A fetch that reports [SUCCEEDED]: the turn returns the first URL, or
    raises what the subscripts of line 121 raise. *)
Lemma poll_body_succeeded id st h rs :
  succeeds_with rs (fetch w id (h ++ [EvSleep poll_interval])) ->
  exists ev,
    poll_body w id st h
    = (match rs with
       | [] => Exc IndexError
       | Some u :: _ => Ret (Return (Some u))
       | None :: _ => Exc (KeyError "url")
       end, ev).
Proof.
  unfold succeeds_with. body_cases w id st h; try tauto;
    intros (Hc & Hts & Hrs).
  all: try (rewrite Hc in Hcode; discriminate Hcode).
  all: try (unfold ts, get_default in Hsucc; rewrite Hts in Hsucc;
            vm_compute in Hsucc; discriminate Hsucc).
  all: rewrite Hrs in Hres; try discriminate.
  all: repeat match goal with
         | H : Some _ = Some _ |- _ => injection H; clear H; intros; subst
         end; eauto.
Qed.

(** A fetch that reports [PENDING] at 30 seconds or more, with the flag
    not set: the notice is sent once in this turn, and the flag is set exactly
    when the send went through. *)
Lemma poll_body_slow_queue id st h r :
  fetch w id (h ++ [EvSleep poll_interval]) = Answers r ->
  status_code r = 200 ->
  task_status r = Some (lit "PENDING") ->
  30 <= elapsed st + poll_interval ->
  notification_sent st = false ->
  exists st' ev,
    poll_body w id st h = (Ret (Continue st'), ev)
    /\ slow_sends ev = [notification_sent st'].
Proof.
  intros Hf Hc Hts Hel Hflag. apply Z.leb_le in Hel.
  unfold poll_body, bind, try_except, call, send, log, emit, ret.
  rewrite Hf. simpl. rewrite Hc. simpl.
  unfold get_default. rewrite Hts, Hel, Hflag.
  change (str_eqb (lit "PENDING") (lit "PENDING")) with true.
  change (str_eqb (lit "PENDING") (lit "SUCCEEDED")) with false.
  change (str_eqb (lit "PENDING") (lit "FAILED")) with false.
  simpl.
  destruct (opt_str_eqb _ _); simpl;
    destruct (reply_text w MsgSlowQueue _); simpl; eauto.
Qed.

End Poller.

(** ** The loop *)

Ltac norm_app := rewrite ?app_nil_r, <- ?app_assoc; simpl.

Section Loop.

Variable w : World.

Lemma poll_loop_end fuel id st h :
  max_wait <= elapsed st ->
  poll_loop w fuel id st h = (Ret (LoopEnd st), []).
Proof.
  intros H. apply Z.ltb_ge in H.
  destruct fuel; simpl; rewrite H; reflexivity.
Qed.

Lemma poll_loop_step fuel id st h :
  elapsed st < max_wait ->
  poll_loop w (S fuel) id st h =
  match poll_body w id st h with
  | (Ret (Continue st'), ev) =>
      let (x, ev') := poll_loop w fuel id st' (h ++ ev) in (x, ev ++ ev')
  | (Ret (Return v), ev) => (Ret (LoopReturn v), ev)
  | (Exc e, ev) => (Exc e, ev)
  | (NoFuel, ev) => (NoFuel, ev)
  end.
Proof.
  intros H. apply Z.ltb_lt in H.
  simpl. rewrite H. unfold bind.
  destruct (poll_body w id st h) as [[[st'|v]|e|] ev]; try reflexivity.
  unfold ret. rewrite app_nil_r. reflexivity.
Qed.

#[local] Arguments poll_loop : simpl never.

(** With fuel for every second of [max_wait] the loop ends by itself; what
    it has logged depends on the way it ends. *)
Lemma poll_loop_logs fuel : forall id st h,
  max_wait - elapsed st <= Z.of_nat fuel ->
  let (x, ev) := poll_loop w fuel id st h in
  timeout_logs ev = [] /\
  match x with
  | NoFuel => False
  | Exc _ => filter is_failure_log ev = []
  | Ret (LoopReturn (Some _)) => filter is_failure_log ev = []
  | Ret (LoopReturn None) =>
      exists m, filter is_failure_log ev = [EvLog (LogTaskFailed m)]
  | Ret (LoopEnd st') =>
      filter is_failure_log ev = []
      /\ max_wait <= elapsed st'
      /\ last_status st' = last (map Some (status_logs ev)) (last_status st)
  end.
Proof.
  induction fuel as [|fuel IH]; intros id st h Hfuel.
  - rewrite poll_loop_end by lia. simpl. repeat split; try reflexivity. lia.
  - destruct (Z.lt_ge_cases (elapsed st) max_wait) as [Hlt|Hge].
    2:{ rewrite poll_loop_end by lia. simpl.
        repeat split; try reflexivity. lia. }
    rewrite poll_loop_step by assumption.
    pose proof (poll_body_logs w id st h) as Hbody.
    destruct (poll_body w id st h) as [[[st'|[u|]]|e|] ev];
      destruct Hbody as [Ht Hbody]; try (split; assumption).
    destruct Hbody as (Hf & Hel & Hlast).
    assert (Hfuel' : max_wait - elapsed st' <= Z.of_nat fuel).
    { rewrite Hel. unfold poll_interval. lia. }
    specialize (IH id st' (h ++ ev) Hfuel').
    destruct (poll_loop w fuel id st' (h ++ ev)) as [x ev'].
    destruct IH as [Ht' IH].
    rewrite timeout_logs_app, Ht, Ht'. split; [reflexivity|].
    rewrite filter_app, Hf. simpl.
    destruct x as [[[u|]|st'']|e|]; try assumption.
    destruct IH as (Hf' & Hge & Hlast'). repeat split; try assumption.
    rewrite status_logs_app, map_app, last_app_default, <- Hlast.
    exact Hlast'.
Qed.

(** The slow-queue sends of the loop: none when the flag is set; otherwise
    some failed sends, then at most one that went through, then none. *)
Lemma poll_loop_notify fuel : forall id st h,
  let (x, ev) := poll_loop w fuel id st h in
  if notification_sent st then slow_sends ev = []
  else exists n, slow_sends ev = repeat false n
                 \/ slow_sends ev = repeat false n ++ [true].
Proof.
  assert (Hnone : forall b : bool,
            if b then @nil bool = []
            else exists n, @nil bool = repeat false n
                           \/ @nil bool = repeat false n ++ [true]).
  { intros [|]; [reflexivity|]. exists 0%nat. left. reflexivity. }
  induction fuel as [|fuel IH]; intros id st h.
  - destruct (Z.lt_ge_cases (elapsed st) max_wait) as [Hlt|Hge].
    + apply Z.ltb_lt in Hlt. simpl. unfold poll_loop. rewrite Hlt. apply Hnone.
    + rewrite poll_loop_end by lia. apply Hnone.
  - destruct (Z.lt_ge_cases (elapsed st) max_wait) as [Hlt|Hge].
    2:{ rewrite poll_loop_end by lia. apply Hnone. }
    rewrite poll_loop_step by assumption.
    pose proof (poll_body_notify w id st h) as Hbody.
    destruct (poll_body w id st h) as [[[st'|v]|e|] ev];
      try (rewrite Hbody; apply Hnone).
    specialize (IH id st' (h ++ ev)).
    destruct (poll_loop w fuel id st' (h ++ ev)) as [x ev'].
    rewrite slow_sends_app.
    destruct (notification_sent st).
    + destruct Hbody as [Hflag Hs]. rewrite Hflag in IH.
      rewrite Hs, IH. reflexivity.
    + destruct Hbody as [[Hs Hflag]|Hs].
      * rewrite Hflag in IH. rewrite Hs. exact IH.
      * rewrite Hs. destruct (notification_sent st').
        -- rewrite IH. exists 0%nat. right. reflexivity.
        -- destruct IH as [n [IH|IH]]; rewrite IH; exists (S n);
             [left|right]; reflexivity.
Qed.

(** [m] fetches that are not terminal take the loop through [m] turns. *)
Lemma poll_loop_prefix m : forall fuel id st h,
  (forall k h', (k < m)%nat -> fetches h' = (fetches h + k)%nat ->
                terminal (fetch w id h') = false) ->
  elapsed st + poll_interval * Z.of_nat m <= max_wait ->
  (m <= fuel)%nat ->
  exists st' ev,
    poll_loop w fuel id st h
    = (let (x, ev') := poll_loop w (fuel - m) id st' (h ++ ev) in
       (x, ev ++ ev'))
    /\ elapsed st' = elapsed st + poll_interval * Z.of_nat m
    /\ fetches ev = m /\ sleeps ev = m
    /\ poll_times ev
       = map (fun k => elapsed st + poll_interval * Z.of_nat (S k)) (seq 0 m)
    /\ filter is_failure_log ev = [] /\ timeout_logs ev = []
    /\ last_status st' = last (map Some (status_logs ev)) (last_status st).
Proof.
  induction m as [|m IH]; intros fuel id st h Hnt Hel Hfuel.
  - exists st, []. rewrite app_nil_r, Nat.sub_0_r.
    destruct (poll_loop w fuel id st h) as [x ev'].
    simpl. repeat split; try reflexivity. lia.
  - destruct fuel as [|fuel]; [lia|].
    assert (Hlt : elapsed st < max_wait) by (unfold poll_interval in Hel; lia).
    rewrite poll_loop_step by assumption.
    destruct (poll_body_nonterminal w id st h) as (st1 & ev1 & Hbody).
    { apply (Hnt 0%nat); [lia|]. rewrite fetches_app.
      change (fetches [EvSleep poll_interval]) with 0%nat. lia. }
    pose proof (poll_body_counts w id st h) as Hcnt.
    pose proof (poll_body_logs w id st h) as Hlog.
    rewrite Hbody in *.
    destruct Hcnt as (Hf1 & Hs1 & Hp1).
    destruct Hlog as (Ht1 & Hfl1 & Hel1 & Hlast1).
    destruct (IH fuel id st1 (h ++ ev1)) as (st' & ev & Heq & Hel' & Hf & Hs & Hp & Hfl & Ht & Hlast).
    { intros k h' Hk Hh'. apply (Hnt (S k)); [lia|].
      rewrite Hh', fetches_app, Hf1. lia. }
    { rewrite Hel1. lia. }
    { lia. }
    exists st', (ev1 ++ ev). rewrite Heq. simpl Nat.sub.
    rewrite <- app_assoc.
    destruct (poll_loop w (fuel - m) id st' (h ++ ev1 ++ ev)) as [x ev'].
    rewrite <- app_assoc.
    rewrite fetches_app, sleeps_app, poll_times_app, filter_app,
      timeout_logs_app, status_logs_app, map_app, last_app_default.
    rewrite Hf1, Hs1, Hp1, Hfl1, Ht1, Hf, Hs, Hp, Hfl, Ht, <- Hlast1, Hel', Hel1.
    repeat split; try reflexivity; try lia; try assumption.
    rewrite <- cons_seq, <- seq_shift, map_cons, map_map. simpl app.
    unfold poll_interval. f_equal; try lia. apply map_ext. intros k. lia.
Qed.

End Loop.

(** ** The generation as a whole *)

#[local] Arguments poll_loop : simpl never.

Section Generation.

Variable w : World.

(** A failed submission ends the generation at once. *)
Lemma generate_rejected prompt h :
  submission_failed (async_call w prompt h) = true ->
  exists l, generate_image_from_prompt w prompt h
            = (Ret None, [EvSubmit prompt; EvLog l])
            /\ (l = LogImageApiError \/ exists e, l = LogImageException e).
Proof.
  unfold generate_image_from_prompt, try_except, bind, call, log, emit, ret.
  destruct (async_call w prompt h) as [e|resp]; simpl; intros H.
  - exists (LogImageException e). split; eauto.
  - rewrite H. simpl. exists LogImageApiError. split; auto.
Qed.

(** After a submission that went through, the generation is the loop and
    what follows it. *)
Lemma generate_submitted prompt h resp id :
  async_call w prompt h = Answers resp ->
  sub_status_code resp = 200 ->
  sub_task_id resp = id ->
  generate_image_from_prompt w prompt h =
  let pre := [EvSubmit prompt; EvLog (LogTaskCreated id)] in
  match poll_loop w (Z.to_nat max_wait) id job_start (h ++ pre) with
  | (Ret (LoopReturn v), ev) => (Ret v, pre ++ ev)
  | (Ret (LoopEnd st), ev) =>
      let tl := EvLog (LogTimeout (last_status st)) in
      match reply_text w MsgTimeout (h ++ pre ++ ev ++ [tl]) with
      | None => (Ret None, pre ++ ev ++ [tl; EvReply MsgTimeout true])
      | Some e =>
          (Ret None,
           pre ++ ev ++ [tl; EvReply MsgTimeout false;
                         EvLog (LogImageException e)])
      end
  | (Exc e, ev) => (Ret None, pre ++ ev ++ [EvLog (LogImageException e)])
  | (NoFuel, ev) => (NoFuel, pre ++ ev)
  end.
Proof.
  intros Hs Hc Hid.
  unfold generate_image_from_prompt, try_except, bind, call, send, log, emit,
    subscript, ret.
  rewrite Hs, Hc, Hid. simpl. norm_app.
  match goal with
  | |- context [poll_loop w ?f id job_start ?h0] =>
      destruct (poll_loop w f id job_start h0) as [[[v|st]|e|] ev]
  end; simpl; norm_app; try reflexivity.
  destruct (reply_text w MsgTimeout _); simpl; norm_app; reflexivity.
Qed.

End Generation.

(** ** Runs with a known course *)

Lemma filter_nil_weaken {A} (f g : A -> bool) (l : list A) :
  (forall x, f x = true -> g x = true) ->
  filter g l = [] -> filter f l = [].
Proof.
  intros Hfg. induction l as [|x l IH]; simpl; [reflexivity|].
  destruct (g x) eqn:Hg; [discriminate|]. intros Hl.
  destruct (f x) eqn:Hf; [|auto].
  apply Hfg in Hf. congruence.
Qed.

Lemma observes_nonterminal s a :
  observes s a ->
  str_eqb s (lit "SUCCEEDED") = false ->
  str_eqb s (lit "FAILED") = false ->
  terminal a = false.
Proof.
  destruct a as [e|r]; simpl; [reflexivity|].
  intros [_ Hts] Hs Hf. unfold get_default. rewrite Hts, Hs, Hf.
  apply andb_false_r.
Qed.

Lemma poll_times_upto n :
  map (fun k => elapsed job_start + poll_interval * Z.of_nat (S k)) (seq 0 n)
  ++ [elapsed job_start + poll_interval * Z.of_nat n + poll_interval]
  = map (fun k => poll_interval * Z.of_nat k) (seq 1 (S n)).
Proof.
  rewrite seq_S, map_app, <- seq_shift, map_map.
  unfold job_start, poll_interval. cbn [elapsed map].
  f_equal; try (apply map_ext; intros k; lia); f_equal; lia.
Qed.

Section Runs.

Variable w : World.

(** Fetches that report the statuses of [l], none of them terminal, take
    the loop through as many turns and leave the changes of status in the
    log. *)
Lemma poll_loop_statuses l : forall fuel id st h,
  (forall k s h', nth_error l k = Some s ->
                  fetches h' = (fetches h + k)%nat ->
                  observes s (fetch w id h')) ->
  Forall (fun s => str_eqb s (lit "SUCCEEDED") = false
                   /\ str_eqb s (lit "FAILED") = false) l ->
  elapsed st + poll_interval * Z.of_nat (List.length l) <= max_wait ->
  (List.length l <= fuel)%nat ->
  exists st' ev,
    poll_loop w fuel id st h
    = (let (x, ev') := poll_loop w (fuel - List.length l) id st' (h ++ ev) in
       (x, ev ++ ev'))
    /\ elapsed st' = elapsed st + poll_interval * Z.of_nat (List.length l)
    /\ fetches ev = List.length l
    /\ status_logs ev = changes (last_status st) l
    /\ last_status st' = last (map Some l) (last_status st).
Proof.
  induction l as [|s l IH]; intros fuel id st h Hobs Hnt Hel Hfuel.
  - exists st, []. rewrite app_nil_r, Nat.sub_0_r.
    destruct (poll_loop w fuel id st h) as [x ev'].
    simpl. repeat split; try reflexivity. lia.
  - destruct fuel as [|fuel]; [simpl in Hfuel; lia|].
    inversion Hnt as [|s0 l0 [Hs Hf] Hnt']; subst.
    assert (Hlt : elapsed st < max_wait).
    { simpl List.length in Hel. unfold poll_interval in Hel. lia. }
    assert (Ho : observes s (fetch w id (h ++ [EvSleep poll_interval]))).
    { apply (Hobs 0%nat); [reflexivity|]. rewrite fetches_app.
      change (fetches [EvSleep poll_interval]) with 0%nat. lia. }
    rewrite poll_loop_step by assumption.
    destruct (poll_body_nonterminal w id st h) as (st1 & ev1 & Hbody).
    { apply observes_nonterminal with (s := s); assumption. }
    pose proof (poll_body_counts w id st h) as Hcnt.
    pose proof (poll_body_logs w id st h) as Hlog.
    pose proof (@poll_body_observes w id st h s Ho) as Hob.
    rewrite Hbody in *.
    destruct Hcnt as (Hf1 & _ & _).
    destruct Hlog as (_ & _ & Hel1 & _).
    destruct Hob as (Hst1 & Hlast1 & _).
    destruct (IH fuel id st1 (h ++ ev1))
      as (st' & ev & Heq & Hel' & Hfe & Hst & Hlast).
    { intros k s' h' Hk Hh'. apply (Hobs (S k)); [exact Hk|].
      rewrite Hh', fetches_app, Hf1. lia. }
    { exact Hnt'. }
    { rewrite Hel1. simpl List.length in Hel. lia. }
    { simpl in Hfuel. lia. }
    exists st', (ev1 ++ ev). rewrite Heq. simpl Nat.sub.
    rewrite <- app_assoc.
    destruct (poll_loop w (fuel - List.length l) id st' (h ++ ev1 ++ ev))
      as [x ev'].
    rewrite <- app_assoc, fetches_app, status_logs_app, Hf1, Hfe, Hst, Hst1,
      Hel', Hel1, Hlast, Hlast1.
    repeat split.
    + simpl List.length. unfold poll_interval. lia.
    + simpl. destruct (opt_str_eqb (Some s) (last_status st)) eqn:Hsame;
        simpl; [|reflexivity].
      destruct (last_status st) as [s'|]; [|discriminate Hsame].
      apply str_eqb_eq in Hsame. subst s'. reflexivity.
    + simpl map. rewrite last_cons. reflexivity.
Qed.

(** Either the submission fails and the generation ends at once, or it
    yields a task id to poll with. *)
Lemma generate_cases prompt h :
  (exists l, generate_image_from_prompt w prompt h
             = (Ret None, [EvSubmit prompt; EvLog l])
             /\ (l = LogImageApiError \/ exists e, l = LogImageException e))
  \/ (exists resp id, async_call w prompt h = Answers resp
                      /\ sub_status_code resp = 200
                      /\ sub_task_id resp = id).
Proof.
  destruct (submission_failed (async_call w prompt h)) eqn:Hsub.
  - left. apply generate_rejected. exact Hsub.
  - destruct (async_call w prompt h) as [e|resp] eqn:Hcall;
      [discriminate Hsub|].
    simpl in Hsub. apply negb_false_iff, Z.eqb_eq in Hsub.
    right. exists resp, (sub_task_id resp). auto.
Qed.

(** The first effect of a generation is the submission of its prompt. *)
Lemma generate_first_event prompt h :
  exists r rest,
    generate_image_from_prompt w prompt h = (r, EvSubmit prompt :: rest).
Proof.
  destruct (generate_cases prompt h)
    as [(l & Heq & _)|(resp & id & Hs & Hc & Hid)].
  - rewrite Heq. eauto.
  - rewrite (generate_submitted w prompt h Hs Hc Hid). cbv zeta.
    destruct (poll_loop w (Z.to_nat max_wait) id job_start
                (h ++ [EvSubmit prompt; EvLog (LogTaskCreated id)]))
      as [[[v|st]|e|] ev]; simpl; eauto.
    destruct (reply_text w MsgTimeout _); eauto.
Qed.

(** The task reports [SUCCEEDED] at the [N]-th poll, [N] at most 45, after
    fetches that are not terminal: the generation fetches [N] times and ends
    on what line 121 makes of the results. *)
Lemma generate_succeeded_at prompt h resp id N rs :
  (1 <= N <= 45)%nat ->
  async_call w prompt h = Answers resp ->
  sub_status_code resp = 200 ->
  sub_task_id resp = id ->
  (forall k h', (k < N - 1)%nat -> fetches h' = (fetches h + k)%nat ->
                terminal (fetch w id h') = false) ->
  (forall h', fetches h' = (fetches h + (N - 1))%nat ->
              succeeds_with rs (fetch w id h')) ->
  exists ev,
    generate_image_from_prompt w prompt h
    = match rs with
      | [] => (Ret None, ev ++ [EvLog (LogImageException IndexError)])
      | Some u :: _ => (Ret (Some u), ev)
      | None :: _ =>
          (Ret None, ev ++ [EvLog (LogImageException (KeyError "url"))])
      end
    /\ fetches ev = N /\ sleeps ev = N
    /\ poll_times ev = map (fun k => poll_interval * Z.of_nat k) (seq 1 N)
    /\ filter is_failure_log ev = [].
Proof.
  intros HN Hs Hc Hid Hnt Hsucc.
  rewrite (generate_submitted w prompt h Hs Hc Hid). cbv zeta.
  set (h0 := h ++ [EvSubmit prompt; EvLog (LogTaskCreated id)]).
  assert (Hh0 : fetches h0 = fetches h).
  { unfold h0. rewrite fetches_app. unfold fetches at 2. simpl. lia. }
  destruct (@poll_loop_prefix w (N - 1) (Z.to_nat max_wait) id job_start h0)
    as (st' & ev & Heq & Hel & Hf & Hsl & Hp & Hfl & Ht & _).
  { intros k h' Hk Hh'. apply (Hnt k); [exact Hk|]. lia. }
  { unfold poll_interval, max_wait. simpl elapsed. lia. }
  { change (Z.to_nat max_wait) with 180%nat. lia. }
  rewrite Heq. clear Heq.
  change (Z.to_nat max_wait) with 180%nat.
  replace (180 - (N - 1))%nat with (S (179 - (N - 1)))%nat by lia.
  rewrite poll_loop_step
    by (rewrite Hel; unfold poll_interval, max_wait; simpl elapsed; lia).
  destruct (@poll_body_succeeded w id st' (h0 ++ ev) rs) as (ev1 & Hbody).
  { apply Hsucc. rewrite !fetches_app, Hh0, Hf.
    change (fetches [EvSleep poll_interval]) with 0%nat. lia. }
  pose proof (poll_body_counts w id st' (h0 ++ ev)) as Hcnt.
  pose proof (poll_body_logs w id st' (h0 ++ ev)) as Hlog.
  rewrite Hbody in *.
  destruct Hcnt as (Hf1 & Hs1 & Hp1).
  exists ([EvSubmit prompt; EvLog (LogTaskCreated id)] ++ ev ++ ev1).
  assert (Hfacts :
    fetches ([EvSubmit prompt; EvLog (LogTaskCreated id)] ++ ev ++ ev1) = N
    /\ sleeps ([EvSubmit prompt; EvLog (LogTaskCreated id)] ++ ev ++ ev1) = N
    /\ poll_times ([EvSubmit prompt; EvLog (LogTaskCreated id)] ++ ev ++ ev1)
       = map (fun k => poll_interval * Z.of_nat k) (seq 1 N)
    /\ filter is_failure_log
         ([EvSubmit prompt; EvLog (LogTaskCreated id)] ++ ev ++ ev1) = []).
  { rewrite !fetches_app, !sleeps_app, !poll_times_app, !filter_app,
      Hf, Hsl, Hp, Hfl, Hf1, Hs1, Hp1, Hel.
    assert (Hfl1 : filter is_failure_log ev1 = []).
    { destruct rs as [|[u|] rs']; apply Hlog. }
    rewrite Hfl1.
    repeat split; try reflexivity;
      try (unfold fetches, sleeps; simpl; lia).
    destruct N as [|n]; [lia|].
    replace (S n - 1)%nat with n by lia.
    change (poll_times [EvSubmit prompt; EvLog (LogTaskCreated id)])
      with (@nil Z).
    apply poll_times_upto. }
  split; [|exact Hfacts].
  destruct rs as [|[u|] rs']; norm_app; reflexivity.
Qed.

End Runs.

(* ================================================================== *)
(** * The claims *)

(** ** Submission *)

(** C7. When the submission fails (an exception, or a status other than
    200), the generation returns [None] at once: it logs the failure and
    neither sleeps nor fetches, so no turn of the polling loop runs. *)
Theorem submission_failure_no_polling w prompt h :
  submission_failed (async_call w prompt h) = true ->
  exists l,
    generate_image_from_prompt w prompt h
    = (Ret None, [EvSubmit prompt; EvLog l])
    /\ (l = LogImageApiError \/ exists e, l = LogImageException e)
    /\ fetches (snd (generate_image_from_prompt w prompt h)) = 0%nat
    /\ sleeps (snd (generate_image_from_prompt w prompt h)) = 0%nat.
Proof.
  intros H. destruct (generate_rejected w prompt h H) as (l & Heq & Hl).
  exists l. rewrite Heq. repeat split; auto.
Qed.

Lemma submission_failure_no_polling_witness :
  submission_failed (async_call w_rejected (lit "a cat") []) = true
  /\ exists l,
      generate_image_from_prompt w_rejected (lit "a cat") []
      = (Ret None, [EvSubmit (lit "a cat"); EvLog l])
      /\ (l = LogImageApiError \/ exists e, l = LogImageException e)
      /\ fetches (snd (generate_image_from_prompt w_rejected (lit "a cat") []))
         = 0%nat
      /\ sleeps (snd (generate_image_from_prompt w_rejected (lit "a cat") []))
         = 0%nat.
Proof.
  split; [reflexivity|].
  apply (submission_failure_no_polling w_rejected (lit "a cat") []).
  reflexivity.
Defined.

(** ** Polling *)

(** C5. When no fetch is ever terminal (the task stays PENDING, or in any
    status other than SUCCEEDED and FAILED, or the fetch fails), the loop
    ends by itself: the generation fetches exactly 45 times, at [elapsed] =
    4, 8, ..., 180, never beyond [max_wait], then writes the timeout record,
    tries the timeout message, and returns [None]. *)
Theorem pending_forever_times_out w prompt h resp id :
  async_call w prompt h = Answers resp ->
  sub_status_code resp = 200 ->
  sub_task_id resp = id ->
  (forall h', terminal (fetch w id h') = false) ->
  exists ev ls delivered,
    generate_image_from_prompt w prompt h = (Ret None, ev)
    /\ fetches ev = 45%nat /\ sleeps ev = 45%nat
    /\ Z.of_nat (fetches ev) = (max_wait + poll_interval - 1) / poll_interval
    /\ poll_times ev = map (fun k => poll_interval * Z.of_nat k) (seq 1 45)
    /\ Forall (fun t => t <= max_wait) (poll_times ev)
    /\ timeout_logs ev = [ls]
    /\ In (EvReply MsgTimeout delivered) ev.
Proof.
  intros Hs Hc Hid Hnt.
  rewrite (generate_submitted w prompt h Hs Hc Hid). cbv zeta.
  destruct (@poll_loop_prefix w 45 (Z.to_nat max_wait) id job_start
              (h ++ [EvSubmit prompt; EvLog (LogTaskCreated id)]))
    as (st' & ev & Heq & Hel & Hf & Hsl & Hp & Hfl & Ht & Hlast).
  { intros k h' _ _. apply Hnt. }
  { vm_compute. discriminate. }
  { vm_compute. lia. }
  rewrite Heq. rewrite poll_loop_end by (rewrite Hel; vm_compute; discriminate).
  rewrite app_nil_r.
  assert (Hpt : poll_times ev
                = map (fun k => poll_interval * Z.of_nat k) (seq 1 45)).
  { rewrite Hp. reflexivity. }
  assert (Hall : Forall (fun t => t <= max_wait) (poll_times ev)).
  { rewrite Hpt. apply Forall_forall. intros t Hin.
    apply in_map_iff in Hin as (k & <- & Hk). apply in_seq in Hk.
    unfold poll_interval, max_wait. lia. }
  destruct (reply_text w MsgTimeout _) as [e|];
    [exists ([EvSubmit prompt; EvLog (LogTaskCreated id)] ++ ev
             ++ [EvLog (LogTimeout (last_status st'));
                 EvReply MsgTimeout false; EvLog (LogImageException e)]),
       (last_status st'), false
    |exists ([EvSubmit prompt; EvLog (LogTaskCreated id)] ++ ev
             ++ [EvLog (LogTimeout (last_status st'));
                 EvReply MsgTimeout true]),
       (last_status st'), true];
    (split; [reflexivity|]);
    rewrite !fetches_app, !sleeps_app, !poll_times_app, !timeout_logs_app,
      Hf, Hsl, Ht;
    simpl; rewrite ?app_nil_r;
    repeat split; auto.
  all: do 2 right; apply in_or_app; right; simpl; auto.
Qed.

Lemma pending_forever_times_out_witness :
  (forall h', terminal (fetch w_pending (Some (lit "t1")) h') = false)
  /\ exists ev ls delivered,
      generate_image_from_prompt w_pending (lit "a cat") [] = (Ret None, ev)
      /\ fetches ev = 45%nat /\ sleeps ev = 45%nat
      /\ Z.of_nat (fetches ev) = (max_wait + poll_interval - 1) / poll_interval
      /\ poll_times ev = map (fun k => poll_interval * Z.of_nat k) (seq 1 45)
      /\ Forall (fun t => t <= max_wait) (poll_times ev)
      /\ timeout_logs ev = [ls]
      /\ In (EvReply MsgTimeout delivered) ev.
Proof.
  assert (H : forall h', terminal (fetch w_pending (Some (lit "t1")) h') = false).
  { intros h'. simpl. destruct (fetches h'); reflexivity. }
  split; [exact H|].
  apply (@pending_forever_times_out w_pending (lit "a cat") []
           {| sub_status_code := 200; sub_task_id := Some (lit "t1") |}
           (Some (lit "t1")));
    [reflexivity | reflexivity | reflexivity | exact H].
Defined.

(** C6. When the submission goes through and the [N]-th fetch, [N] between
    1 and 45, is the first terminal one and reports [SUCCEEDED] with a
    non-empty first result URL [u], the generation returns [u] (a value the
    caller takes for a success), after exactly [N] sleeps and [N] fetches, at
    [elapsed] = 4, ..., 4N: nothing is polled after the terminal status. *)
Theorem succeeds_on_nth_poll w prompt h resp id N u rest :
  (1 <= N <= 45)%nat ->
  async_call w prompt h = Answers resp ->
  sub_status_code resp = 200 ->
  sub_task_id resp = id ->
  (forall k h', (k < N - 1)%nat -> fetches h' = (fetches h + k)%nat ->
                terminal (fetch w id h') = false) ->
  (forall h', fetches h' = (fetches h + (N - 1))%nat ->
              succeeds_with (Some u :: rest) (fetch w id h')) ->
  is_empty u = false ->
  exists ev,
    generate_image_from_prompt w prompt h = (Ret (Some u), ev)
    /\ falsy (Some u) = false
    /\ fetches ev = N /\ sleeps ev = N
    /\ poll_times ev = map (fun k => poll_interval * Z.of_nat k) (seq 1 N).
Proof.
  intros HN Hs Hc Hid Hnt Hsucc Hu.
  destruct (@generate_succeeded_at w prompt h resp id N (Some u :: rest)
              HN Hs Hc Hid Hnt Hsucc) as (ev & Heq & Hf & Hsl & Hp & _).
  exists ev. auto.
Qed.

Lemma succeeds_on_nth_poll_witness :
  (1 <= 3 <= 45)%nat
  /\ (forall k h', (k < 3 - 1)%nat -> fetches h' = (fetches [] + k)%nat ->
                   terminal (fetch w_third_poll (Some (lit "t1")) h') = false)
  /\ (forall h', fetches h' = (fetches [] + (3 - 1))%nat ->
                 succeeds_with [Some (lit "https://img/1.png"); None]
                   (fetch w_third_poll (Some (lit "t1")) h'))
  /\ exists ev,
      generate_image_from_prompt w_third_poll (lit "a cat") []
      = (Ret (Some (lit "https://img/1.png")), ev)
      /\ falsy (Some (lit "https://img/1.png")) = false
      /\ fetches ev = 3%nat /\ sleeps ev = 3%nat
      /\ poll_times ev = map (fun k => poll_interval * Z.of_nat k) (seq 1 3).
Proof.
  assert (H1 : forall k h', (k < 3 - 1)%nat ->
                 fetches h' = (fetches [] + k)%nat ->
                 terminal (fetch w_third_poll (Some (lit "t1")) h') = false).
  { intros k h' Hk Hh'. simpl in Hh'. simpl fetch. rewrite Hh'.
    destruct k as [|[|k]]; [reflexivity | reflexivity | lia]. }
  assert (H2 : forall h', fetches h' = (fetches [] + (3 - 1))%nat ->
                 succeeds_with [Some (lit "https://img/1.png"); None]
                   (fetch w_third_poll (Some (lit "t1")) h')).
  { intros h' Hh'. simpl in Hh'. simpl fetch. rewrite Hh'.
    simpl. repeat split; reflexivity. }
  repeat split; [lia | lia | exact H1 | exact H2 |].
  apply (@succeeds_on_nth_poll w_third_poll (lit "a cat") []
           {| sub_status_code := 200; sub_task_id := Some (lit "t1") |}
           (Some (lit "t1")) 3 (lit "https://img/1.png") [None]);
    [lia | reflexivity | reflexivity | reflexivity | exact H1 | exact H2
    | reflexivity].
Defined.

(** C4, as the code has it. When the [N]-th fetch, [N] between 1 and 45, is
    the first terminal one and reports [SUCCEEDED] with an empty results
    list, the index error of line 121 is caught by the handler of line 131:
    the generation returns [None] after [N] fetches, and the only failure
    record it writes is the one of that handler, for the index error; no
    exception reaches the caller and no task failure is recorded. *)
Theorem empty_results_caught w prompt h resp id N :
  (1 <= N <= 45)%nat ->
  async_call w prompt h = Answers resp ->
  sub_status_code resp = 200 ->
  sub_task_id resp = id ->
  (forall k h', (k < N - 1)%nat -> fetches h' = (fetches h + k)%nat ->
                terminal (fetch w id h') = false) ->
  (forall h', fetches h' = (fetches h + (N - 1))%nat ->
              succeeds_with [] (fetch w id h')) ->
  exists ev,
    generate_image_from_prompt w prompt h = (Ret None, ev)
    /\ filter is_failure_log ev = [EvLog (LogImageException IndexError)]
    /\ filter is_task_failed_log ev = []
    /\ fetches ev = N.
Proof.
  intros HN Hs Hc Hid Hnt Hsucc.
  destruct (@generate_succeeded_at w prompt h resp id N []
              HN Hs Hc Hid Hnt Hsucc) as (ev & Heq & Hf & Hsl & Hp & Hfl).
  exists (ev ++ [EvLog (LogImageException IndexError)]).
  rewrite !filter_app, fetches_app, Hfl, Hf.
  rewrite (@filter_nil_weaken _ is_task_failed_log is_failure_log ev);
    [| intros [| | | | | | |[]|]; simpl; congruence | exact Hfl].
  repeat split; try assumption; try reflexivity.
  unfold fetches. simpl. lia.
Qed.

Lemma empty_results_caught_witness :
  (1 <= 2 <= 45)%nat
  /\ (forall k h', (k < 2 - 1)%nat -> fetches h' = (fetches [] + k)%nat ->
                   terminal (fetch w_empty_results (Some (lit "t1")) h') = false)
  /\ (forall h', fetches h' = (fetches [] + (2 - 1))%nat ->
                 succeeds_with [] (fetch w_empty_results (Some (lit "t1")) h'))
  /\ exists ev,
      generate_image_from_prompt w_empty_results (lit "a cat") []
      = (Ret None, ev)
      /\ filter is_failure_log ev = [EvLog (LogImageException IndexError)]
      /\ filter is_task_failed_log ev = []
      /\ fetches ev = 2%nat.
Proof.
  assert (H1 : forall k h', (k < 2 - 1)%nat ->
                 fetches h' = (fetches [] + k)%nat ->
                 terminal (fetch w_empty_results (Some (lit "t1")) h') = false).
  { intros k h' Hk Hh'. simpl in Hh'. simpl fetch. rewrite Hh'.
    destruct k as [|k]; [reflexivity | lia]. }
  assert (H2 : forall h', fetches h' = (fetches [] + (2 - 1))%nat ->
                 succeeds_with [] (fetch w_empty_results (Some (lit "t1")) h')).
  { intros h' Hh'. simpl in Hh'. simpl fetch. rewrite Hh'.
    simpl. repeat split; reflexivity. }
  repeat split; [lia | lia | exact H1 | exact H2 |].
  apply (@empty_results_caught w_empty_results (lit "a cat") []
           {| sub_status_code := 200; sub_task_id := Some (lit "t1") |}
           (Some (lit "t1")) 2);
    [lia | reflexivity | reflexivity | reflexivity | exact H1 | exact H2].
Defined.

(** C4, as the claim has it, fails: with [SUCCEEDED] and no results at the
    second poll the generation writes no task-failure record (so none with
    a malformed-payload reason): its failure record is the one of the
    catch-all handler. *)
Lemma empty_results_not_job_failed :
  let run := generate_image_from_prompt w_empty_results (lit "a cat") [] in
  fst run = Ret None
  /\ (forall m, ~ In (EvLog (LogTaskFailed m)) (snd run))
  /\ last (snd run) (EvSleep 0) = EvLog (LogImageException IndexError).
Proof.
  cbv zeta. repeat split; try (vm_compute; reflexivity).
  intros m Hin.
  assert (H : existsb is_task_failed_log
                (snd (generate_image_from_prompt w_empty_results
                        (lit "a cat") [])) = true).
  { apply existsb_exists. exists (EvLog (LogTaskFailed m)). auto. }
  vm_compute in H. discriminate H.
Qed.

(** ** The status log *)

(** C3, as the code has it. When the first four fetches report PENDING,
    PENDING, RUNNING and SUCCEEDED, the status log of line 110 gets exactly
    three records: PENDING, RUNNING, SUCCEEDED. The first status seen is
    recorded (it differs from the initial [None]); the repeated PENDING is
    not. *)
Theorem four_statuses_three_records w prompt h resp id :
  async_call w prompt h = Answers resp ->
  sub_status_code resp = 200 ->
  sub_task_id resp = id ->
  (forall k s h',
     nth_error [lit "PENDING"; lit "PENDING"; lit "RUNNING"; lit "SUCCEEDED"] k
     = Some s ->
     fetches h' = (fetches h + k)%nat ->
     observes s (fetch w id h')) ->
  exists v ev,
    generate_image_from_prompt w prompt h = (Ret v, ev)
    /\ status_logs ev = [lit "PENDING"; lit "RUNNING"; lit "SUCCEEDED"]
    /\ fetches ev = 4%nat.
Proof.
  intros Hs Hc Hid Hobs.
  rewrite (generate_submitted w prompt h Hs Hc Hid). cbv zeta.
  set (pre := [EvSubmit prompt; EvLog (LogTaskCreated id)]).
  set (h0 := h ++ pre).
  assert (Hh0 : fetches h0 = fetches h).
  { unfold h0. rewrite fetches_app. unfold fetches at 2. simpl. lia. }
  destruct (@poll_loop_statuses w [lit "PENDING"; lit "PENDING"; lit "RUNNING"]
              (Z.to_nat max_wait) id job_start h0)
    as (st' & ev & Heq & Hel & Hf & Hst & Hlast).
  { intros k s h' Hk Hh'. apply (Hobs k); [|lia].
    destruct k as [|[|[|k]]]; try exact Hk. destruct k; discriminate Hk. }
  { repeat constructor. }
  { vm_compute. discriminate. }
  { vm_compute. lia. }
  rewrite Heq. clear Heq.
  change (Z.to_nat max_wait - _)%nat with (S 176).
  rewrite poll_loop_step by (rewrite Hel; vm_compute; reflexivity).
  assert (Ho : observes (lit "SUCCEEDED")
                 (fetch w id ((h0 ++ ev) ++ [EvSleep poll_interval]))).
  { apply (Hobs 3%nat); [reflexivity|].
    rewrite !fetches_app, Hh0, Hf.
    change (fetches [EvSleep poll_interval]) with 0%nat. simpl. lia. }
  pose proof (@poll_body_observes w id st' (h0 ++ ev) _ Ho) as Hob.
  pose proof (poll_body_logs w id st' (h0 ++ ev)) as Hlog.
  pose proof (poll_body_counts w id st' (h0 ++ ev)) as Hcnt.
  assert (Hpre : status_logs pre = [] /\ fetches pre = 0%nat)
    by (split; reflexivity).
  destruct Hpre as [Hpre1 Hpre2].
  assert (Hch : changes (last_status st') [lit "SUCCEEDED"]
                = [lit "SUCCEEDED"]).
  { rewrite Hlast. reflexivity. }
  assert (Hch0 : changes (last_status job_start)
                   [lit "PENDING"; lit "PENDING"; lit "RUNNING"]
                 = [lit "PENDING"; lit "RUNNING"]) by reflexivity.
  destruct (poll_body w id st' (h0 ++ ev)) as [[[st''|v]|e|] ev1];
    destruct Hob as [Hst1 Hob]; destruct Hlog as [_ Hlog];
    destruct Hcnt as (Hf1 & _ & _).
  - destruct Hob as (_ & Habs & _). vm_compute in Habs. discriminate Habs.
  - exists v, (pre ++ ev ++ ev1). split; [reflexivity|].
    rewrite !status_logs_app, !fetches_app, Hpre1, Hpre2, Hst, Hst1, Hch,
      Hch0, Hf, Hf1.
    split; reflexivity.
  - exists None, (pre ++ (ev ++ ev1) ++ [EvLog (LogImageException e)]).
    split; [reflexivity|].
    rewrite !status_logs_app, !fetches_app, Hpre1, Hpre2, Hst, Hst1, Hch,
      Hch0, Hf, Hf1.
    split; reflexivity.
  - destruct Hlog.
Qed.

Lemma four_statuses_three_records_witness :
  (forall k s h',
     nth_error [lit "PENDING"; lit "PENDING"; lit "RUNNING"; lit "SUCCEEDED"] k
     = Some s ->
     fetches h' = (fetches [] + k)%nat ->
     observes s (fetch w_four_statuses (Some (lit "t1")) h'))
  /\ exists v ev,
      generate_image_from_prompt w_four_statuses (lit "a cat") [] = (Ret v, ev)
      /\ status_logs ev = [lit "PENDING"; lit "RUNNING"; lit "SUCCEEDED"]
      /\ fetches ev = 4%nat.
Proof.
  assert (H : forall k s h',
     nth_error [lit "PENDING"; lit "PENDING"; lit "RUNNING"; lit "SUCCEEDED"] k
     = Some s ->
     fetches h' = (fetches [] + k)%nat ->
     observes s (fetch w_four_statuses (Some (lit "t1")) h')).
  { intros k s h' Hk Hh'. simpl in Hh'. simpl fetch. rewrite Hh'.
    destruct k as [|[|[|[|k]]]]; simpl in Hk;
      try (injection Hk as <-; simpl; split; reflexivity).
    destruct k; discriminate Hk. }
  split; [exact H|].
  apply (@four_statuses_three_records w_four_statuses (lit "a cat") []
           {| sub_status_code := 200; sub_task_id := Some (lit "t1") |}
           (Some (lit "t1")));
    [reflexivity | reflexivity | reflexivity | exact H].
Defined.

(** C3, as the claim has it, fails: on the statuses PENDING, PENDING,
    RUNNING, SUCCEEDED the log gets three records, not two, the first being
    the first status seen. *)
Lemma four_statuses_not_two_records :
  let ev := snd (generate_image_from_prompt w_four_statuses (lit "a cat") []) in
  status_logs ev = [lit "PENDING"; lit "RUNNING"; lit "SUCCEEDED"]
  /\ List.length (status_logs ev) <> 2%nat.
Proof. vm_compute. split; [reflexivity | discriminate]. Qed.

(** ** The slow-queue notice *)

(** C1, as the code has it. Over a generation the sends of the slow-queue
    notice are some failed sends followed by at most one that went through,
    and none after it: the flag goes from false to true at most once, when a
    send goes through. At a poll where the condition holds ([elapsed] at
    least 30, flag not set, status PENDING) the notice is sent once and the
    flag is set exactly when that send went through; a failed send is
    swallowed and leaves the flag as it was. Once the flag is set it stays
    set and the notice is not sent again. *)
Theorem slow_queue_notice_until_delivered w :
  (forall prompt h, exists n,
      slow_sends (snd (generate_image_from_prompt w prompt h))
      = repeat false n
      \/ slow_sends (snd (generate_image_from_prompt w prompt h))
         = repeat false n ++ [true])
  /\ (forall id st h r,
        fetch w id (h ++ [EvSleep poll_interval]) = Answers r ->
        status_code r = 200 ->
        task_status r = Some (lit "PENDING") ->
        30 <= elapsed st + poll_interval ->
        notification_sent st = false ->
        exists st' ev,
          poll_body w id st h = (Ret (Continue st'), ev)
          /\ slow_sends ev = [notification_sent st'])
  /\ (forall id st h st' ev,
        poll_body w id st h = (Ret (Continue st'), ev) ->
        notification_sent st = true ->
        notification_sent st' = true /\ slow_sends ev = []).
Proof.
  split; [|split].
  - intros prompt h.
    destruct (generate_cases w prompt h)
      as [(l & Heq & _)|(resp & id & Hs & Hc & Hid)].
    + rewrite Heq. exists 0%nat. left. reflexivity.
    + rewrite (generate_submitted w prompt h Hs Hc Hid). cbv zeta.
      pose proof (poll_loop_notify w (Z.to_nat max_wait) id job_start
                    (h ++ [EvSubmit prompt; EvLog (LogTaskCreated id)]))
        as Hloop.
      destruct (poll_loop w (Z.to_nat max_wait) id job_start
                  (h ++ [EvSubmit prompt; EvLog (LogTaskCreated id)]))
        as [[[v|st]|e|] ev]; simpl in Hloop.
      * exact Hloop.
      * destruct (reply_text w MsgTimeout _); cbn [snd];
          rewrite !slow_sends_app; simpl; rewrite app_nil_r; exact Hloop.
      * cbn [snd]. rewrite !slow_sends_app. simpl. rewrite app_nil_r.
        exact Hloop.
      * exact Hloop.
  - intros id st h r. apply poll_body_slow_queue.
  - intros id st h st' ev Hbody Hflag.
    pose proof (poll_body_notify w id st h) as Hn.
    rewrite Hbody, Hflag in Hn. exact Hn.
Qed.

Lemma slow_queue_notice_until_delivered_witness :
  (exists n,
      slow_sends (snd (generate_image_from_prompt w_pending (lit "a cat") []))
      = repeat false n
      \/ slow_sends (snd (generate_image_from_prompt w_pending (lit "a cat") []))
         = repeat false n ++ [true])
  /\ (exists st' ev,
        poll_body w_pending (Some (lit "t1"))
          {| elapsed := 28; last_status := Some (lit "PENDING");
             notification_sent := false |} []
        = (Ret (Continue st'), ev)
        /\ slow_sends ev = [notification_sent st'])
  /\ (notification_sent
        {| elapsed := 36; last_status := Some (lit "PENDING");
           notification_sent := true |} = true
      /\ slow_sends [EvSleep 4; EvFetch (Some (lit "t1")) 36] = []).
Proof.
  destruct (slow_queue_notice_until_delivered w_pending) as (H1 & H2 & H3).
  split; [apply H1|]. split.
  - apply (H2 (Some (lit "t1")) _ []
             {| status_code := 200; task_status := Some (lit "PENDING");
                results := Some []; message := None |});
      [reflexivity | reflexivity | reflexivity | vm_compute; discriminate
      | reflexivity].
  - apply (H3 (Some (lit "t1"))
             {| elapsed := 32; last_status := Some (lit "PENDING");
                notification_sent := true |} []);
      reflexivity.
Defined.

(** C1, as the claim has it, fails: when the first send of the notice is
    lost, the notice is sent again at the next poll, twice in all. *)
Lemma failed_notice_is_sent_again :
  let ev :=
    snd (generate_image_from_prompt w_first_send_lost (lit "a cat") []) in
  slow_sends ev = [false; true] /\ List.length (slow_sends ev) <> 1%nat.
Proof. vm_compute. split; [reflexivity | discriminate]. Qed.

(** ** Rewriting the prompt *)

(** C8. The rewrite always returns a prompt and never raises. When the call
    to the completion model raises or answers with a status other than 200,
    the rewrite returns the fallback text for that kind of failure, which
    contains the phrase, and writes one error record, the sign that the
    fallback was used. *)
Theorem rewrite_falls_back w user_phrase h :
  (exists p ev, rewrite_prompt_with_qwen w user_phrase h = (Ret p, ev))
  /\ (rewrite_failed (generation_call w (user_prompt_of user_phrase) h) = true ->
      exists l,
        rewrite_prompt_with_qwen w user_phrase h
        = (Ret match generation_call w (user_prompt_of user_phrase) h with
               | Raises _ => fallback_exception user_phrase
               | Answers _ => fallback_non_ok user_phrase
               end,
           [EvGeneration (user_prompt_of user_phrase); EvLog l])
        /\ is_qwen_failure_log (EvLog l) = true
        /\ substring user_phrase (fallback_exception user_phrase)
        /\ substring user_phrase (fallback_non_ok user_phrase)).
Proof.
  unfold rewrite_prompt_with_qwen, try_except, bind, call, log, emit,
    subscript, raise, ret.
  destruct (generation_call w (user_prompt_of user_phrase) h)
    as [e|response]; simpl.
  - split; [eauto|]. intros _. exists (LogQwenException e).
    repeat split; apply substring_middle.
  - destruct (gen_status_code response =? 200) eqn:Hcode; simpl.
    + split; [|discriminate].
      destruct (gen_text response) as [text|]; simpl; eauto.
    + split; [eauto|]. intros _. exists LogQwenError.
      repeat split; apply substring_middle.
Qed.

Lemma rewrite_falls_back_witness :
  (exists p ev,
      rewrite_prompt_with_qwen w_pending [0x4e00%N] [] = (Ret p, ev))
  /\ rewrite_failed
       (generation_call w_pending (user_prompt_of [0x4e00%N]) []) = true
  /\ exists l,
      rewrite_prompt_with_qwen w_pending [0x4e00%N] []
      = (Ret (fallback_exception [0x4e00%N]),
         [EvGeneration (user_prompt_of [0x4e00%N]); EvLog l])
      /\ is_qwen_failure_log (EvLog l) = true
      /\ substring [0x4e00%N] (fallback_exception [0x4e00%N])
      /\ substring [0x4e00%N] (fallback_non_ok [0x4e00%N]).
Proof.
  destruct (rewrite_falls_back w_pending [0x4e00%N] []) as [H1 H2].
  split; [exact H1|]. split; [reflexivity|].
  apply H2. reflexivity.
Defined.

(** ** Language detection and the choice of the prompt *)

Lemma is_chinese_spec (text : pystr) :
  is_chinese text = true
  <-> exists c, In c text /\ (0x4e00 <= c /\ c <= 0x9fff)%N.
Proof.
  induction text as [|char rest IH]; simpl.
  - split; [discriminate | intros (c & [] & _)].
  - destruct ((0x4e00 <=? char)%N && (char <=? 0x9fff)%N) eqn:Hc.
    + split; [|reflexivity]. intros _. exists char.
      apply andb_true_iff in Hc as [H1 H2].
      apply N.leb_le in H1, H2. auto.
    + rewrite IH. split.
      * intros (c & Hin & Hr). exists c. auto.
      * intros (c & [<-|Hin] & H1 & H2); [|eauto].
        apply N.leb_le in H1, H2. rewrite H1, H2 in Hc. discriminate Hc.
Qed.

(** C9. A text is taken for Chinese exactly when one of its code points
    lies in U+4E00..U+9FFF. For any other text the prompt is the text itself,
    unchanged: the completion model is not called, only the progress message
    is sent and the prompt logged (if that message cannot be sent, the
    handler ends there, with no prompt). So two runs on the same text, in any
    worlds and after any histories, give the same prompt; and the handler,
    on a message that it does not ignore, submits that very text. *)
Theorem language_detection_and_passthrough w text h :
  (is_chinese text = true
   <-> exists c, In c text /\ (0x4e00 <= c /\ c <= 0x9fff)%N)
  /\ (is_chinese text = false ->
      enhanced_prompt_for w text h
      = match reply_text w (MsgGeneratingEN text) h with
        | None =>
            (Ret text,
             [EvReply (MsgGeneratingEN text) true; EvLog (LogDirect text)])
        | Some e => (Exc e, [EvReply (MsgGeneratingEN text) false])
        end)
  /\ (is_chinese text = false ->
      filter is_generation (snd (enhanced_prompt_for w text h)) = []
      /\ forall w' h' p p' ev ev',
           enhanced_prompt_for w text h = (Ret p, ev) ->
           enhanced_prompt_for w' text h' = (Ret p', ev') ->
           p = text /\ p' = text)
  /\ (forall message_text,
        strip message_text = text ->
        is_empty text || startswith text (lit "/") = false ->
        is_chinese text = false ->
        reply_text w (MsgGeneratingEN text) h = None ->
        exists rest,
          snd (handle_message w message_text h)
          = EvReply (MsgGeneratingEN text) true :: EvLog (LogDirect text)
            :: EvSubmit text :: rest).
Proof.
  assert (Heq : forall w0 h0, is_chinese text = false ->
            enhanced_prompt_for w0 text h0
            = match reply_text w0 (MsgGeneratingEN text) h0 with
              | None =>
                  (Ret text,
                   [EvReply (MsgGeneratingEN text) true;
                    EvLog (LogDirect text)])
              | Some e => (Exc e, [EvReply (MsgGeneratingEN text) false])
              end).
  { intros w0 h0 Hother.
    unfold enhanced_prompt_for, bind, send, log, emit, ret.
    rewrite Hother.
    destruct (reply_text w0 (MsgGeneratingEN text) h0); reflexivity. }
  split; [apply is_chinese_spec|]. split; [apply Heq|]. split.
  - intros Hother. split.
    + rewrite (Heq w h Hother).
      destruct (reply_text w (MsgGeneratingEN text) h); reflexivity.
    + intros w' h' p p' ev ev'.
      rewrite (Heq w h Hother), (Heq w' h' Hother).
      destruct (reply_text w (MsgGeneratingEN text) h);
        destruct (reply_text w' (MsgGeneratingEN text) h');
        intros H1 H2; try discriminate H1; try discriminate H2.
      injection H1 as <- _. injection H2 as <- _. auto.
  - intros message_text Hstrip Hkept Hother Hreply.
    unfold handle_message. rewrite Hstrip. cbv zeta. rewrite Hkept.
    rewrite (@bind_events _ _ _ _ h text
               [EvReply (MsgGeneratingEN text) true; EvLog (LogDirect text)])
      by (rewrite (Heq w h Hother), Hreply; reflexivity).
    destruct (generate_first_event w text
                (h ++ [EvReply (MsgGeneratingEN text) true;
                       EvLog (LogDirect text)]))
      as (r & rest & Hgen).
    match goal with
    | |- context [snd (bind ?m ?f ?h0)] =>
        destruct (bind_events_prefix m f h0) as [rest' Hrest]
    end.
    rewrite Hrest, Hgen. simpl. eauto.
Qed.

Lemma language_detection_and_passthrough_witness :
  is_chinese (lit "a cat") = false
  /\ enhanced_prompt_for w_pending (lit "a cat") []
     = (Ret (lit "a cat"),
        [EvReply (MsgGeneratingEN (lit "a cat")) true;
         EvLog (LogDirect (lit "a cat"))])
  /\ filter is_generation
       (snd (enhanced_prompt_for w_pending (lit "a cat") [])) = []
  /\ exists rest,
      snd (handle_message w_pending (lit " a cat ") [])
      = EvReply (MsgGeneratingEN (lit "a cat")) true
        :: EvLog (LogDirect (lit "a cat")) :: EvSubmit (lit "a cat") :: rest.
Proof.
  destruct (language_detection_and_passthrough w_pending (lit "a cat") [])
    as (_ & H2 & H3 & H4).
  split; [reflexivity|]. split; [|split].
  - apply H2. reflexivity.
  - apply H3. reflexivity.
  - apply (H4 (lit " a cat ")); reflexivity.
Defined.

(** ** Messages that are ignored *)

(** C10. A message whose text is empty once stripped, or then begins with
    ['/'], is ignored: the handler returns at once and does nothing, so no
    reply, no rewrite, no submission and no fetch. *)
Theorem ignored_message_no_effect w message_text h :
  strip message_text = []
  \/ (exists rest, strip message_text = 0x2f%N :: rest) ->
  handle_message w message_text h = (Ret tt, []).
Proof.
  unfold handle_message.
  intros [Hempty|[rest Hslash]].
  - rewrite Hempty. reflexivity.
  - rewrite Hslash. unfold lit. simpl. reflexivity.
Qed.

Lemma ignored_message_no_effect_witness :
  (exists rest, strip (lit "  /start ") = 0x2f%N :: rest)
  /\ handle_message w_pending (lit "  /start ") [] = (Ret tt, []).
Proof.
  assert (H : exists rest, strip (lit "  /start ") = 0x2f%N :: rest).
  { exists (lit "start"). reflexivity. }
  split; [exact H|].
  apply (ignored_message_no_effect w_pending (lit "  /start ") []).
  right. exact H.
Defined.

(* ================================================================== *)
(** * Further properties *)

(** ** Traces, again *)

Lemma notice_times_app (a b : list Event) (t : Z) :
  notice_times t (a ++ b)
  = notice_times t a ++ notice_times (last (poll_times a) t) b.
Proof.
  revert t; induction a as [|e a IH]; intros t; [reflexivity|].
  destruct e as [| | |id t'|[] ok| | | |];
    cbn [app notice_times poll_times]; rewrite IH, ?last_cons; reflexivity.
Qed.

Lemma forallb_filter_nil {A} (f g : A -> bool) (l : list A) :
  (forall x, f x = true -> g x = false) ->
  forallb f l = true -> filter g l = [].
Proof.
  intros Hfg. induction l as [|x l IH]; simpl; [reflexivity|].
  intros H. apply andb_true_iff in H as [Hx Hl].
  rewrite (Hfg x Hx). auto.
Qed.

Lemma polling_is_generation_event id e :
  is_polling_event id e = true -> is_generation_event id e = true.
Proof. unfold is_generation_event. intros ->. reflexivity. Qed.

Lemma forallb_weaken {A} (f g : A -> bool) (l : list A) :
  (forall x, f x = true -> g x = true) ->
  forallb f l = true -> forallb g l = true.
Proof.
  intros Hfg H. apply forallb_forall. intros x Hx.
  apply Hfg. revert x Hx. apply forallb_forall. exact H.
Qed.

(** ** One turn of the loop, again *)

Section PollerMore.

Variable w : World.

(** A turn does nothing but sleep the interval, fetch its task, send the
    notice and write its four kinds of record. *)
Lemma poll_body_events id st h :
  forallb (is_polling_event id) (snd (poll_body w id st h)) = true.
Proof.
  body_cases w id st h.
  all: rewrite ?opt_str_eqb_refl; reflexivity.
Qed.

(** The notice is sent only in a turn whose fetch is at 30 seconds or
    more. *)
Lemma poll_body_notice_times id st h t0 :
  Forall (fun t => 30 <= t)
    (notice_times t0 (snd (poll_body w id st h))).
Proof.
  body_cases w id st h.
  all: try (constructor; fail).
  all: apply andb_true_iff in Hslow as [Hslow _];
    apply andb_true_iff in Hslow as [Hslow _]; apply Z.leb_le in Hslow.
  all: repeat constructor; exact Hslow.
Qed.

(** A turn that returns has the status it returns on as the last status
    logged. *)
Lemma poll_body_return_status id st h :
  let (c, ev) := poll_body w id st h in
  match c with
  | Ret (Return (Some _)) =>
      last (map Some (status_logs ev)) (last_status st)
      = Some (lit "SUCCEEDED")
  | Ret (Return None) =>
      last (map Some (status_logs ev)) (last_status st) = Some (lit "FAILED")
  | _ => True
  end.
Proof.
  body_cases w id st h; try exact I.
  all: try (apply str_eqb_eq in Hsucc; rewrite <- Hsucc).
  all: try (apply str_eqb_eq in Hfail; rewrite <- Hfail).
  all: try reflexivity.
  all: destruct (last_status st) as [s'|]; try discriminate Hsame;
    apply str_eqb_eq in Hsame; congruence.
Qed.

(** A lost fetch changes nothing but [elapsed]: no status is logged and no
    notice is sent. *)
Lemma poll_body_fetch_failed id st h :
  fetch_failed (fetch w id (h ++ [EvSleep poll_interval])) = true ->
  exists ev,
    poll_body w id st h
    = (Ret (Continue {| elapsed := elapsed st + poll_interval;
                        last_status := last_status st;
                        notification_sent := notification_sent st |}), ev)
    /\ status_logs ev = [] /\ slow_sends ev = [].
Proof.
  unfold fetch_failed. body_cases w id st h; intros Hlost; eauto.
  all: discriminate Hlost.
Qed.

(** A fetch that reports [FAILED] ends the loop with the record of the
    failure. *)
Lemma poll_body_failed id st h error_msg :
  fails_with error_msg (fetch w id (h ++ [EvSleep poll_interval])) ->
  exists ev,
    poll_body w id st h = (Ret (Return None), ev)
    /\ filter is_failure_log ev = [EvLog (LogTaskFailed error_msg)].
Proof.
  unfold fails_with. body_cases w id st h; try tauto;
    intros (Hc & Hts & Hmsg).
  all: try (rewrite Hc in Hcode; discriminate Hcode).
  all: try (unfold ts, get_default in Hsucc; rewrite Hts in Hsucc;
            vm_compute in Hsucc; discriminate Hsucc).
  all: try (unfold ts, get_default in Hfail; rewrite Hts in Hfail;
            vm_compute in Hfail; discriminate Hfail).
  all: rewrite Hmsg; eauto.
Qed.

End PollerMore.

(** ** The loop, again *)

Section LoopMore.

Variable w : World.

(** Induction along the turns of the loop. *)
Lemma poll_loop_induction id
    (R : JobState -> outcome loop_exit -> list Event -> Prop) :
  (forall st, max_wait <= elapsed st -> R st (Ret (LoopEnd st)) []) ->
  (forall st, R st NoFuel []) ->
  (forall st h v ev,
     elapsed st < max_wait ->
     poll_body w id st h = (Ret (Return v), ev) ->
     R st (Ret (LoopReturn v)) ev) ->
  (forall st h e ev,
     elapsed st < max_wait ->
     poll_body w id st h = (Exc e, ev) ->
     R st (Exc e) ev) ->
  (forall st h st' ev x ev',
     elapsed st < max_wait ->
     poll_body w id st h = (Ret (Continue st'), ev) ->
     R st' x ev' ->
     R st x (ev ++ ev')) ->
  forall fuel st h,
    R st (fst (poll_loop w fuel id st h)) (snd (poll_loop w fuel id st h)).
Proof.
  intros Hend Hnofuel Hret Hexc Hstep.
  induction fuel as [|fuel IH]; intros st h;
    destruct (Z.lt_ge_cases (elapsed st) max_wait) as [Hlt|Hge];
    try (rewrite poll_loop_end by lia; apply Hend; lia).
  - unfold poll_loop. apply Z.ltb_lt in Hlt. rewrite Hlt. apply Hnofuel.
  - rewrite poll_loop_step by assumption.
    pose proof (poll_body_logs w id st h) as Hlog.
    destruct (poll_body w id st h) as [[[st'|v]|e|] ev] eqn:Hbody.
    + specialize (IH st' (h ++ ev)).
      destruct (poll_loop w fuel id st' (h ++ ev)) as [x ev'].
      apply (Hstep st h st' ev x ev' Hlt Hbody IH).
    + apply (Hret st h v ev Hlt Hbody).
    + apply (Hexc st h e ev Hlt Hbody).
    + destruct Hlog as [_ []].
Qed.

(** The loop does nothing but what its turns do. *)
Lemma poll_loop_events fuel id st h :
  forallb (is_polling_event id) (snd (poll_loop w fuel id st h)) = true.
Proof.
  apply (poll_loop_induction id
           (fun _ _ ev => forallb (is_polling_event id) ev = true));
    try reflexivity.
  - intros st0 h0 v ev _ Hbody.
    pose proof (poll_body_events w id st0 h0) as H. rewrite Hbody in H. exact H.
  - intros st0 h0 e ev _ Hbody.
    pose proof (poll_body_events w id st0 h0) as H. rewrite Hbody in H. exact H.
  - intros st0 h0 st' ev x ev' _ Hbody IH.
    pose proof (poll_body_events w id st0 h0) as H. rewrite Hbody in H.
    rewrite forallb_app. simpl in H. rewrite H, IH. reflexivity.
Qed.

(** From [elapsed] = 4k the loop polls at 4(k+1), 4(k+2), ..., and at most
    until 180; it runs to its end only by polling until 180. *)
Lemma poll_loop_bound fuel id st h k :
  elapsed st = poll_interval * Z.of_nat k ->
  (k <= 45)%nat ->
  exists n,
    (k + n <= 45)%nat
    /\ fetches (snd (poll_loop w fuel id st h)) = n
    /\ sleeps (snd (poll_loop w fuel id st h)) = n
    /\ poll_times (snd (poll_loop w fuel id st h))
       = map (fun i => poll_interval * Z.of_nat i) (seq (S k) n)
    /\ (forall st', fst (poll_loop w fuel id st h) = Ret (LoopEnd st') ->
                    (k + n = 45)%nat).
Proof.
  revert k.
  apply (poll_loop_induction id
           (fun st x ev => forall k,
              elapsed st = poll_interval * Z.of_nat k ->
              (k <= 45)%nat ->
              exists n,
                (k + n <= 45)%nat /\ fetches ev = n /\ sleeps ev = n
                /\ poll_times ev
                   = map (fun i => poll_interval * Z.of_nat i)
                       (seq (S k) n)
                /\ (forall st', x = Ret (LoopEnd st') -> (k + n = 45)%nat))).
  - intros st0 Hge k Hk Hle. exists 0%nat.
    unfold max_wait, poll_interval in *.
    repeat split; try reflexivity; lia.
  - intros st0 k Hk Hle. exists 0%nat.
    repeat split; try reflexivity; try lia. discriminate.
  - intros st0 h0 v ev Hlt Hbody k Hk Hle.
    pose proof (poll_body_counts w id st0 h0) as H. rewrite Hbody in H.
    destruct H as (Hf & Hs & Hp). exists 1%nat.
    unfold max_wait, poll_interval in *.
    repeat split; auto; try lia; try discriminate.
    rewrite Hp, Hk. cbn [map seq]. f_equal. lia.
  - intros st0 h0 e ev Hlt Hbody k Hk Hle.
    pose proof (poll_body_counts w id st0 h0) as H. rewrite Hbody in H.
    destruct H as (Hf & Hs & Hp). exists 1%nat.
    unfold max_wait, poll_interval in *.
    repeat split; auto; try lia; try discriminate.
    rewrite Hp, Hk. cbn [map seq]. f_equal. lia.
  - intros st0 h0 st' ev x ev' Hlt Hbody IH k Hk Hle.
    pose proof (poll_body_counts w id st0 h0) as H. rewrite Hbody in H.
    destruct H as (Hf & Hs & Hp).
    pose proof (poll_body_logs w id st0 h0) as Hlog. rewrite Hbody in Hlog.
    destruct Hlog as (_ & _ & Hel & _).
    unfold max_wait, poll_interval in *.
    destruct (IH (S k)) as (n & Hn & Hf' & Hs' & Hp' & Hend); [lia | lia |].
    exists (S n).
    rewrite fetches_app, sleeps_app, poll_times_app, Hf, Hs, Hp, Hf', Hs',
      Hp', Hk.
    repeat split; try lia.
    + cbn [map seq app]. f_equal. lia.
    + intros st'' Hx. specialize (Hend st'' Hx). lia.
Qed.

(** The notice is only ever sent after a fetch at 30 seconds or more. *)
Lemma poll_loop_notice_times fuel id st h t0 :
  Forall (fun t => 30 <= t)
    (notice_times t0 (snd (poll_loop w fuel id st h))).
Proof.
  revert t0.
  apply (poll_loop_induction id
           (fun _ _ ev => forall t0,
              Forall (fun t => 30 <= t) (notice_times t0 ev)));
    try (intros; constructor).
  - intros st0 h0 v ev _ Hbody t0.
    pose proof (poll_body_notice_times w id st0 h0 t0) as H.
    rewrite Hbody in H. exact H.
  - intros st0 h0 e ev _ Hbody t0.
    pose proof (poll_body_notice_times w id st0 h0 t0) as H.
    rewrite Hbody in H. exact H.
  - intros st0 h0 st' ev x ev' _ Hbody IH t0.
    pose proof (poll_body_notice_times w id st0 h0 t0) as H.
    rewrite Hbody in H. rewrite notice_times_app.
    apply Forall_app. split; [exact H | apply IH].
Qed.

(** A loop that returns has the status it returns on as the last status
    logged. *)
Lemma poll_loop_return_status fuel id st h :
  match fst (poll_loop w fuel id st h) with
  | Ret (LoopReturn (Some _)) =>
      last (map Some (status_logs (snd (poll_loop w fuel id st h))))
        (last_status st) = Some (lit "SUCCEEDED")
  | Ret (LoopReturn None) =>
      last (map Some (status_logs (snd (poll_loop w fuel id st h))))
        (last_status st) = Some (lit "FAILED")
  | _ => True
  end.
Proof.
  apply (poll_loop_induction id
           (fun st x ev =>
              match x with
              | Ret (LoopReturn (Some _)) =>
                  last (map Some (status_logs ev)) (last_status st)
                  = Some (lit "SUCCEEDED")
              | Ret (LoopReturn None) =>
                  last (map Some (status_logs ev)) (last_status st)
                  = Some (lit "FAILED")
              | _ => True
              end));
    try (intros; exact I).
  - intros st0 h0 v ev _ Hbody.
    pose proof (poll_body_return_status w id st0 h0) as H.
    rewrite Hbody in H. exact H.
  - intros st0 h0 st' ev x ev' _ Hbody IH.
    pose proof (poll_body_logs w id st0 h0) as Hlog. rewrite Hbody in Hlog.
    destruct Hlog as (_ & _ & _ & Hlast).
    rewrite status_logs_app, map_app, last_app_default, <- Hlast.
    exact IH.
Qed.

(** When every fetch is lost the loop runs to its end without logging a
    status or sending the notice. *)
Lemma poll_loop_unreachable fuel id st h :
  (forall h', fetch_failed (fetch w id h') = true) ->
  slow_sends (snd (poll_loop w fuel id st h)) = []
  /\ status_logs (snd (poll_loop w fuel id st h)) = []
  /\ match fst (poll_loop w fuel id st h) with
     | Ret (LoopEnd st') => last_status st' = last_status st
     | NoFuel => True
     | _ => False
     end.
Proof.
  intros Hlost.
  apply (poll_loop_induction id
           (fun st x ev =>
              slow_sends ev = [] /\ status_logs ev = []
              /\ match x with
                 | Ret (LoopEnd st') => last_status st' = last_status st
                 | NoFuel => True
                 | _ => False
                 end)); auto.
  - intros st0 h0 v ev _ Hbody.
    destruct (poll_body_fetch_failed w id st0 h0 (Hlost _)) as (ev0 & H & _).
    congruence.
  - intros st0 h0 e ev _ Hbody.
    destruct (poll_body_fetch_failed w id st0 h0 (Hlost _)) as (ev0 & H & _).
    congruence.
  - intros st0 h0 st' ev x ev' _ Hbody (Hs & Hl & Hx).
    destruct (poll_body_fetch_failed w id st0 h0 (Hlost _))
      as (ev0 & H & Hl0 & Hs0).
    rewrite Hbody in H. injection H as -> ->.
    rewrite slow_sends_app, status_logs_app, Hs, Hl, Hl0, Hs0.
    repeat split. destruct x as [[v|st'']|e|]; auto.
Qed.

End LoopMore.

(** ** The generation, again *)

Lemma last_map_some {A} (l : list A) (s d : A) :
  last (map Some l) None = Some s -> last l d = s.
Proof.
  destruct l as [|x l]; [discriminate|].
  simpl map. rewrite !last_cons.
  revert x. induction l as [|y l IH]; intros x; simpl map.
  - simpl. congruence.
  - rewrite !last_cons. apply IH.
Qed.

Section GenerationMore.

Variable w : World.

(** A generation whose submission went through: the submission and its
    record, what the loop did, and what follows the loop. *)
Lemma generate_shape prompt h resp id :
  async_call w prompt h = Answers resp ->
  sub_status_code resp = 200 ->
  sub_task_id resp = id ->
  exists x lev tail v,
    poll_loop w (Z.to_nat max_wait) id job_start
      (h ++ [EvSubmit prompt; EvLog (LogTaskCreated id)]) = (x, lev)
    /\ generate_image_from_prompt w prompt h
       = (Ret v, [EvSubmit prompt; EvLog (LogTaskCreated id)] ++ lev ++ tail)
    /\ ((x = Ret (LoopReturn v) /\ tail = [])
        \/ (exists st,
              x = Ret (LoopEnd st) /\ v = None
              /\ (tail = [EvLog (LogTimeout (last_status st));
                          EvReply MsgTimeout true]
                  \/ exists e,
                       tail = [EvLog (LogTimeout (last_status st));
                               EvReply MsgTimeout false;
                               EvLog (LogImageException e)]))
        \/ (exists e, x = Exc e /\ v = None
                      /\ tail = [EvLog (LogImageException e)])).
Proof.
  intros Hs Hc Hid.
  rewrite (generate_submitted w prompt h Hs Hc Hid). cbv zeta.
  assert (Hfuel : max_wait - elapsed job_start
                  <= Z.of_nat (Z.to_nat max_wait))
    by (vm_compute; discriminate).
  pose proof (@poll_loop_logs w (Z.to_nat max_wait) id job_start
                (h ++ [EvSubmit prompt; EvLog (LogTaskCreated id)]) Hfuel)
    as Hloop.
  destruct (poll_loop w (Z.to_nat max_wait) id job_start
              (h ++ [EvSubmit prompt; EvLog (LogTaskCreated id)]))
    as [[[v|st]|e|] lev].
  - exists (Ret (LoopReturn v)), lev, [], v. rewrite app_nil_r. auto.
  - destruct (reply_text w MsgTimeout _) as [e|].
    + eexists _, lev, _, None. split; [reflexivity|]. split; [reflexivity|].
      right. left. exists st. eauto.
    + eexists _, lev, _, None. split; [reflexivity|]. split; [reflexivity|].
      right. left. exists st. eauto.
  - eexists _, lev, _, None. split; [reflexivity|]. split; [reflexivity|].
    right. right. eauto.
  - destruct Hloop as [_ []].
Qed.

(** What a generation does after the submission. *)
Lemma generate_events prompt h :
  (exists l, snd (generate_image_from_prompt w prompt h)
             = [EvSubmit prompt; EvLog l]
             /\ (l = LogImageApiError \/ exists e, l = LogImageException e))
  \/ (exists resp id rest,
        async_call w prompt h = Answers resp
        /\ sub_status_code resp = 200
        /\ sub_task_id resp = id
        /\ snd (generate_image_from_prompt w prompt h) = EvSubmit prompt :: rest
        /\ forallb (is_generation_event id) rest = true).
Proof.
  destruct (generate_cases w prompt h)
    as [(l & Heq & Hl)|(resp & id & Hs & Hc & Hid)].
  - left. exists l. rewrite Heq. auto.
  - right.
    destruct (generate_shape prompt h Hs Hc Hid)
      as (x & lev & tail & v & Hloop & Heq & Htail).
    exists resp, id, (EvLog (LogTaskCreated id) :: lev ++ tail).
    rewrite Heq. repeat split; auto.
    pose proof (poll_loop_events w (Z.to_nat max_wait) id job_start
                  (h ++ [EvSubmit prompt; EvLog (LogTaskCreated id)]))
      as Hlev.
    rewrite Hloop in Hlev. simpl in Hlev.
    cbn [forallb]. rewrite forallb_app.
    rewrite (forallb_weaken _ _ _ (polling_is_generation_event id) Hlev).
    unfold is_generation_event at 1. simpl. rewrite opt_str_eqb_refl. simpl.
    destruct Htail as [[_ ->]|[(st & _ & _ & [->|[e ->]])|(e & _ & _ & ->)]];
      reflexivity.
Qed.

(** Every generation returns. *)
Lemma generate_returns prompt h :
  exists v ev, generate_image_from_prompt w prompt h = (Ret v, ev).
Proof.
  destruct (generate_cases w prompt h)
    as [(l & Heq & Hl)|(resp & id & Hs & Hc & Hid)]; [eauto|].
  destruct (generate_shape prompt h Hs Hc Hid)
    as (x & lev & tail & v & _ & Heq & _).
  eauto.
Qed.

End GenerationMore.

(* ================================================================== *)
(** * Further results *)

(** ** Bounds and confinement of a generation *)

(** X1. Whatever the backend and the chat do, a generation sleeps and fetches
    the same number of times, at most 45, at [elapsed] = 4, 8, ..., each
    within [max_wait]. *)
Theorem generation_polls_at_most_45 w prompt h :
  exists n,
    (n <= 45)%nat
    /\ fetches (snd (generate_image_from_prompt w prompt h)) = n
    /\ sleeps (snd (generate_image_from_prompt w prompt h)) = n
    /\ poll_times (snd (generate_image_from_prompt w prompt h))
       = map (fun k => poll_interval * Z.of_nat k) (seq 1 n)
    /\ Forall (fun t => 0 < t <= max_wait)
         (poll_times (snd (generate_image_from_prompt w prompt h))).
Proof.
  assert (Hall : forall n, (n <= 45)%nat ->
            Forall (fun t => 0 < t <= max_wait)
              (map (fun k => poll_interval * Z.of_nat k) (seq 1 n))).
  { intros n Hn. apply Forall_forall. intros t Hin.
    apply in_map_iff in Hin as (k & <- & Hk). apply in_seq in Hk.
    unfold poll_interval, max_wait. lia. }
  destruct (generate_cases w prompt h)
    as [(l & Heq & Hl)|(resp & id & Hs & Hc & Hid)].
  - rewrite Heq. exists 0%nat. repeat split; try reflexivity; [lia|].
    constructor.
  - destruct (generate_shape w prompt h Hs Hc Hid)
      as (x & lev & tail & v & Hloop & Heq & Htail).
    destruct (@poll_loop_bound w (Z.to_nat max_wait) id job_start
                (h ++ [EvSubmit prompt; EvLog (LogTaskCreated id)]) 0)
      as (n & Hn & Hf & Hsl & Hp & _); [reflexivity | lia |].
    rewrite Hloop in Hf, Hsl, Hp. cbn [snd] in Hf, Hsl, Hp.
    assert (Htl : fetches tail = 0%nat /\ sleeps tail = 0%nat
                  /\ poll_times tail = []).
    { destruct Htail
        as [[_ ->]|[(st & _ & _ & [->|[e ->]])|(e & _ & _ & ->)]];
        repeat split; reflexivity. }
    destruct Htl as (Hft & Hst & Hpt).
    exists n. rewrite Heq. cbn [snd].
    rewrite !fetches_app, !sleeps_app, !poll_times_app, Hf, Hsl, Hp, Hft,
      Hst, Hpt, app_nil_r.
    change (fetches [EvSubmit prompt; EvLog (LogTaskCreated id)]) with 0%nat.
    change (sleeps [EvSubmit prompt; EvLog (LogTaskCreated id)]) with 0%nat.
    change (poll_times [EvSubmit prompt; EvLog (LogTaskCreated id)])
      with (@nil Z).
    repeat split; try lia; try reflexivity.
    apply Hall. lia.
Qed.

(** X2. A generation submits once, first, and with the prompt it was given.
    It never calls the completion model, never downloads and never sends a
    photo; the only messages it sends are the slow-queue notice and the
    timeout message; and every fetch is for the value that the submission,
    answered with a status of 200, gave as task id: a string, or [None], which
    line 84 takes and the loop polls like any task id. *)
Theorem generation_effects_confined w prompt h :
  exists rest,
    snd (generate_image_from_prompt w prompt h) = EvSubmit prompt :: rest
    /\ filter is_submit rest = []
    /\ filter is_generation rest = []
    /\ filter is_download rest = []
    /\ filter is_photo rest = []
    /\ (forall m delivered, In (EvReply m delivered) rest ->
                            m = MsgSlowQueue \/ m = MsgTimeout)
    /\ (forall task_id t, In (EvFetch task_id t) rest ->
          exists resp, async_call w prompt h = Answers resp
                       /\ sub_status_code resp = 200
                       /\ sub_task_id resp = task_id).
Proof.
  destruct (generate_events w prompt h)
    as [(l & Heq & Hl)
       |(resp & id & rest & Hs & Hc & Hid & Heq & Hrest)].
  - exists [EvLog l]. split; [exact Heq|].
    repeat split; try reflexivity.
    + intros m b [Hin|[]]. discriminate Hin.
    + intros id t [Hin|[]]. discriminate Hin.
  - exists rest. split; [exact Heq|].
    assert (Hnot : forall g : Event -> bool,
              (forall e, is_generation_event id e = true -> g e = false) ->
              filter g rest = []).
    { intros g Hg. apply (forallb_filter_nil _ _ _ Hg Hrest). }
    repeat split.
    + apply Hnot. intros [| | | |[]| | |[]|];
        unfold is_generation_event; simpl; congruence.
    + apply Hnot. intros [| | | |[]| | |[]|];
        unfold is_generation_event; simpl; congruence.
    + apply Hnot. intros [| | | |[]| | |[]|];
        unfold is_generation_event; simpl; congruence.
    + apply Hnot. intros [| | | |[]| | |[]|];
        unfold is_generation_event; simpl; congruence.
    + intros m b Hin.
      pose proof (proj1 (forallb_forall _ _) Hrest _ Hin) as He.
      unfold is_generation_event in He.
      destruct m; simpl in He; try discriminate He; auto.
    + intros id' t Hin.
      pose proof (proj1 (forallb_forall _ _) Hrest _ Hin) as He.
      unfold is_generation_event in He. simpl in He.
      rewrite orb_false_r in He. apply opt_str_eqb_eq in He. subst id'.
      exists resp. auto.
Qed.

(** X3. The slow-queue notice is only ever sent right after a fetch made at
    30 seconds or more, whatever the backend and the chat do. *)
Theorem notice_not_before_30_seconds w prompt h :
  Forall (fun t => 30 <= t)
    (notice_times 0 (snd (generate_image_from_prompt w prompt h))).
Proof.
  destruct (generate_cases w prompt h)
    as [(l & Heq & Hl)|(resp & id & Hs & Hc & Hid)].
  - rewrite Heq. constructor.
  - destruct (generate_shape w prompt h Hs Hc Hid)
      as (x & lev & tail & v & Hloop & Heq & Htail).
    rewrite Heq. cbn [snd app notice_times]. rewrite notice_times_app.
    apply Forall_app. split.
    + pose proof (poll_loop_notice_times w (Z.to_nat max_wait) id job_start
                    (h ++ [EvSubmit prompt; EvLog (LogTaskCreated id)]) 0)
        as H.
      rewrite Hloop in H. exact H.
    + destruct Htail
        as [[_ ->]|[(st & _ & _ & [->|[e ->]])|(e & _ & _ & ->)]];
        constructor.
Qed.

(** X4. The timeout message is attempted once when the timeout record is
    written and never otherwise; there is at most one such record, and it is
    written only after all 45 polls. *)
Theorem timeout_message_with_record w prompt h :
  List.length
    (filter is_timeout_reply (snd (generate_image_from_prompt w prompt h)))
  = List.length (timeout_logs (snd (generate_image_from_prompt w prompt h)))
  /\ (List.length (timeout_logs (snd (generate_image_from_prompt w prompt h)))
      <= 1)%nat
  /\ (timeout_logs (snd (generate_image_from_prompt w prompt h)) <> [] ->
      fetches (snd (generate_image_from_prompt w prompt h)) = 45%nat).
Proof.
  destruct (generate_cases w prompt h)
    as [(l & Heq & Hl)|(resp & id & Hs & Hc & Hid)].
  - rewrite Heq. destruct Hl as [->|[e ->]]; simpl; repeat split; auto;
      congruence.
  - destruct (generate_shape w prompt h Hs Hc Hid)
      as (x & lev & tail & v & Hloop & Heq & Htail).
    set (h0 := h ++ [EvSubmit prompt; EvLog (LogTaskCreated id)]) in *.
    assert (Hfuel : max_wait - elapsed job_start
                    <= Z.of_nat (Z.to_nat max_wait))
      by (vm_compute; discriminate).
    pose proof (@poll_loop_logs w (Z.to_nat max_wait) id job_start h0 Hfuel)
      as Hlogs.
    pose proof (poll_loop_events w (Z.to_nat max_wait) id job_start h0)
      as Hlev.
    destruct (@poll_loop_bound w (Z.to_nat max_wait) id job_start h0 0)
      as (n & Hn & Hf & _ & _ & Hend); [reflexivity | lia |].
    rewrite Hloop in Hlogs, Hlev, Hf, Hend.
    cbn [fst snd] in Hlev, Hf, Hend.
    destruct Hlogs as [Ht _].
    assert (Hr : filter is_timeout_reply lev = []).
    { apply (forallb_filter_nil (is_polling_event id)); [|exact Hlev].
      intros [| | | |[]| | |[]|]; simpl; congruence. }
    rewrite Heq. cbn [snd].
    rewrite !filter_app, !timeout_logs_app, !fetches_app, !length_app,
      Hr, Ht, Hf.
    destruct Htail
      as [[_ ->]|[(st & -> & _ & [->|[e ->]])|(e & _ & _ & ->)]];
      simpl; repeat split; auto; try congruence;
      intros _; specialize (Hend st eq_refl); unfold fetches; simpl; lia.
Qed.

Lemma timeout_message_with_record_witness :
  timeout_logs (snd (generate_image_from_prompt w_pending (lit "a cat") []))
  <> []
  /\ fetches (snd (generate_image_from_prompt w_pending (lit "a cat") []))
     = 45%nat.
Proof.
  assert (H : timeout_logs
                (snd (generate_image_from_prompt w_pending (lit "a cat") []))
              <> []).
  { vm_compute. discriminate. }
  split; [exact H|].
  apply (timeout_message_with_record w_pending (lit "a cat") []). exact H.
Defined.

(** ** How a generation ends *)

(** X5. A generation that returns a URL has logged [SUCCEEDED] as its last
    status, and has neither written a timeout record nor sent the timeout
    message. *)
Theorem returned_url_follows_succeeded w prompt h u ev :
  generate_image_from_prompt w prompt h = (Ret (Some u), ev) ->
  last (status_logs ev) [] = lit "SUCCEEDED"
  /\ timeout_logs ev = []
  /\ filter is_timeout_reply ev = [].
Proof.
  intros Hrun.
  destruct (generate_cases w prompt h)
    as [(l & Heq & Hl)|(resp & id & Hs & Hc & Hid)].
  - rewrite Heq in Hrun. discriminate Hrun.
  - destruct (generate_shape w prompt h Hs Hc Hid)
      as (x & lev & tail & v & Hloop & Heq & Htail).
    rewrite Heq in Hrun. injection Hrun as -> <-.
    destruct Htail as [[-> ->]|[(st & _ & Hv & _)|(e & _ & Hv & _)]];
      try discriminate Hv.
    set (h0 := h ++ [EvSubmit prompt; EvLog (LogTaskCreated id)]) in *.
    assert (Hfuel : max_wait - elapsed job_start
                    <= Z.of_nat (Z.to_nat max_wait))
      by (vm_compute; discriminate).
    pose proof (@poll_loop_logs w (Z.to_nat max_wait) id job_start h0 Hfuel)
      as Hlogs.
    pose proof (poll_loop_events w (Z.to_nat max_wait) id job_start h0)
      as Hlev.
    pose proof (poll_loop_return_status w (Z.to_nat max_wait) id job_start h0)
      as Hlast.
    rewrite Hloop in Hlogs, Hlev, Hlast. cbn [fst snd] in Hlev, Hlast.
    destruct Hlogs as [Ht _].
    rewrite app_nil_r. simpl. repeat split; [|exact Ht|].
    + apply last_map_some. exact Hlast.
    + apply (forallb_filter_nil (is_polling_event id)); [|exact Hlev].
      intros [| | | |[]| | |[]|]; simpl; congruence.
Qed.

Lemma returned_url_follows_succeeded_witness :
  exists ev,
    generate_image_from_prompt w_first_poll (lit "a cat") []
    = (Ret (Some (lit "https://img/1.png")), ev)
    /\ last (status_logs ev) [] = lit "SUCCEEDED"
    /\ timeout_logs ev = []
    /\ filter is_timeout_reply ev = [].
Proof.
  eexists. split; [vm_compute; reflexivity|].
  apply (@returned_url_follows_succeeded w_first_poll (lit "a cat") []
           (lit "https://img/1.png")).
  vm_compute. reflexivity.
Defined.

(** X6. When the [N]-th fetch, [N] between 1 and 45, is the first terminal
    one and reports [FAILED], the generation stops polling there: it returns
    [None] after [N] sleeps and [N] fetches, its only failure record is the
    task failure with the message of the backend (["Unknown error"] when
    there is none), [FAILED] is the last status logged, and no timeout
    message is sent. *)
Theorem failed_on_nth_poll w prompt h resp id N error_msg :
  (1 <= N <= 45)%nat ->
  async_call w prompt h = Answers resp ->
  sub_status_code resp = 200 ->
  sub_task_id resp = id ->
  (forall k h', (k < N - 1)%nat -> fetches h' = (fetches h + k)%nat ->
                terminal (fetch w id h') = false) ->
  (forall h', fetches h' = (fetches h + (N - 1))%nat ->
              fails_with error_msg (fetch w id h')) ->
  exists ev,
    generate_image_from_prompt w prompt h = (Ret None, ev)
    /\ fetches ev = N /\ sleeps ev = N
    /\ filter is_failure_log ev = [EvLog (LogTaskFailed error_msg)]
    /\ last (status_logs ev) [] = lit "FAILED"
    /\ filter is_timeout_reply ev = [].
Proof.
  intros HN Hs Hc Hid Hnt Hfail.
  set (pre := [EvSubmit prompt; EvLog (LogTaskCreated id)]).
  set (h0 := h ++ pre).
  assert (Hh0 : fetches h0 = fetches h).
  { unfold h0. rewrite fetches_app. unfold fetches at 2. simpl. lia. }
  destruct (@poll_loop_prefix w (N - 1) (Z.to_nat max_wait) id job_start h0)
    as (st' & ev & Heq & Hel & Hf & Hsl & _ & Hfl & _).
  { intros k h' Hk Hh'. apply (Hnt k); [exact Hk|]. lia. }
  { unfold poll_interval, max_wait. simpl elapsed. lia. }
  { change (Z.to_nat max_wait) with 180%nat. lia. }
  destruct (@poll_body_failed w id st' (h0 ++ ev) error_msg)
    as (ev1 & Hbody & Hfl1).
  { apply Hfail. rewrite !fetches_app, Hh0, Hf.
    change (fetches [EvSleep poll_interval]) with 0%nat. lia. }
  pose proof (poll_body_counts w id st' (h0 ++ ev)) as Hcnt.
  rewrite Hbody in Hcnt. destruct Hcnt as (Hf1 & Hs1 & _).
  assert (Hloop : poll_loop w (Z.to_nat max_wait) id job_start h0
                  = (Ret (LoopReturn None), ev ++ ev1)).
  { rewrite Heq. change (Z.to_nat max_wait) with 180%nat.
    replace (180 - (N - 1))%nat with (S (179 - (N - 1)))%nat by lia.
    rewrite poll_loop_step
      by (rewrite Hel; unfold poll_interval, max_wait; simpl elapsed; lia).
    rewrite Hbody. reflexivity. }
  pose proof (poll_loop_events w (Z.to_nat max_wait) id job_start h0) as Hlev.
  pose proof (poll_loop_return_status w (Z.to_nat max_wait) id job_start h0)
    as Hlast.
  rewrite Hloop in Hlev, Hlast. cbn [fst snd] in Hlev, Hlast.
  exists (pre ++ ev ++ ev1).
  rewrite (generate_submitted w prompt h Hs Hc Hid). cbv zeta.
  fold pre. fold h0. rewrite Hloop.
  split; [reflexivity|].
  rewrite !fetches_app, !sleeps_app, !filter_app, !status_logs_app,
    Hf, Hsl, Hf1, Hs1, Hfl, Hfl1.
  change (fetches pre) with 0%nat. change (sleeps pre) with 0%nat.
  repeat split; try lia.
  - apply last_map_some. rewrite <- status_logs_app. exact Hlast.
  - rewrite <- filter_app.
    apply (forallb_filter_nil (is_polling_event id)); [|exact Hlev].
    intros [| | | |[]| | |[]|]; simpl; congruence.
Qed.

Lemma failed_on_nth_poll_witness :
  (1 <= 2 <= 45)%nat
  /\ (forall k h', (k < 2 - 1)%nat -> fetches h' = (fetches [] + k)%nat ->
                   terminal (fetch w_failed_second (Some (lit "t1")) h') = false)
  /\ (forall h', fetches h' = (fetches [] + (2 - 1))%nat ->
                 fails_with (lit "unsafe prompt")
                   (fetch w_failed_second (Some (lit "t1")) h'))
  /\ exists ev,
      generate_image_from_prompt w_failed_second (lit "a cat") []
      = (Ret None, ev)
      /\ fetches ev = 2%nat /\ sleeps ev = 2%nat
      /\ filter is_failure_log ev
         = [EvLog (LogTaskFailed (lit "unsafe prompt"))]
      /\ last (status_logs ev) [] = lit "FAILED"
      /\ filter is_timeout_reply ev = [].
Proof.
  assert (H1 : forall k h', (k < 2 - 1)%nat ->
                 fetches h' = (fetches [] + k)%nat ->
                 terminal (fetch w_failed_second (Some (lit "t1")) h') = false).
  { intros k h' Hk Hh'. simpl in Hh'. simpl fetch. rewrite Hh'.
    destruct k as [|k]; [reflexivity | lia]. }
  assert (H2 : forall h', fetches h' = (fetches [] + (2 - 1))%nat ->
                 fails_with (lit "unsafe prompt")
                   (fetch w_failed_second (Some (lit "t1")) h')).
  { intros h' Hh'. simpl in Hh'. simpl fetch. rewrite Hh'.
    simpl. repeat split; reflexivity. }
  repeat split; [lia | lia | exact H1 | exact H2 |].
  apply (@failed_on_nth_poll w_failed_second (lit "a cat") []
           {| sub_status_code := 200; sub_task_id := Some (lit "t1") |}
           (Some (lit "t1")) 2 (lit "unsafe prompt"));
    [lia | reflexivity | reflexivity | reflexivity | exact H1 | exact H2].
Defined.

(** X7. When every status fetch is lost (an exception, or a status other
    than 200), the generation polls all 45 times and times out without ever
    sending the slow-queue notice or logging a status; the timeout record
    carries [None] as the last status. *)
Theorem unreachable_backend_times_out w prompt h resp id :
  async_call w prompt h = Answers resp ->
  sub_status_code resp = 200 ->
  sub_task_id resp = id ->
  (forall h', fetch_failed (fetch w id h') = true) ->
  exists ev,
    generate_image_from_prompt w prompt h = (Ret None, ev)
    /\ fetches ev = 45%nat
    /\ slow_sends ev = []
    /\ status_logs ev = []
    /\ timeout_logs ev = [None]
    /\ List.length (filter is_timeout_reply ev) = 1%nat.
Proof.
  intros Hs Hc Hid Hlost.
  destruct (generate_shape w prompt h Hs Hc Hid)
    as (x & lev & tail & v & Hloop & Heq & Htail).
  set (h0 := h ++ [EvSubmit prompt; EvLog (LogTaskCreated id)]) in *.
  assert (Hfuel : max_wait - elapsed job_start
                  <= Z.of_nat (Z.to_nat max_wait))
    by (vm_compute; discriminate).
  pose proof (@poll_loop_logs w (Z.to_nat max_wait) id job_start h0 Hfuel)
    as Hlogs.
  pose proof (poll_loop_events w (Z.to_nat max_wait) id job_start h0) as Hlev.
  pose proof (@poll_loop_unreachable w (Z.to_nat max_wait) id job_start h0
                Hlost) as Hun.
  destruct (@poll_loop_bound w (Z.to_nat max_wait) id job_start h0 0)
    as (n & Hn & Hf & _ & _ & Hend); [reflexivity | lia |].
  rewrite Hloop in Hlogs, Hlev, Hun, Hf, Hend.
  cbn [fst snd] in Hlev, Hun, Hf, Hend.
  destruct Hlogs as [Ht _]. destruct Hun as (Hslow & Hstat & Hx).
  assert (Hr : filter is_timeout_reply lev = []).
  { apply (forallb_filter_nil (is_polling_event id)); [|exact Hlev].
    intros [| | | |[]| | |[]|]; simpl; congruence. }
  destruct Htail as [[-> _]|[(st & -> & -> & Htail)|(e & -> & _ & _)]];
    [contradiction | | contradiction].
  specialize (Hend st eq_refl).
  simpl in Hx.
  destruct Htail as [->|[e ->]];
    (eexists; split; [exact Heq|]);
    rewrite !fetches_app, !slow_sends_app, !status_logs_app,
      !timeout_logs_app, !filter_app, !length_app, Hf, Hslow, Hstat, Ht, Hr,
      Hx;
    simpl; repeat split; try reflexivity; unfold fetches; simpl; lia.
Qed.

Lemma unreachable_backend_times_out_witness :
  (forall h', fetch_failed (fetch w_unreachable (Some (lit "t1")) h') = true)
  /\ exists ev,
      generate_image_from_prompt w_unreachable (lit "a cat") []
      = (Ret None, ev)
      /\ fetches ev = 45%nat
      /\ slow_sends ev = []
      /\ status_logs ev = []
      /\ timeout_logs ev = [None]
      /\ List.length (filter is_timeout_reply ev) = 1%nat.
Proof.
  assert (H : forall h',
            fetch_failed (fetch w_unreachable (Some (lit "t1")) h') = true).
  { intros h'. simpl. destruct (fetches h'); reflexivity. }
  split; [exact H|].
  apply (@unreachable_backend_times_out w_unreachable (lit "a cat") []
           {| sub_status_code := 200; sub_task_id := Some (lit "t1") |}
           (Some (lit "t1")));
    [reflexivity | reflexivity | reflexivity | exact H].
Defined.

(** ** Rewriting, again *)

Lemma remove_char_idempotent c s :
  remove_char c (remove_char c s) = remove_char c s.
Proof.
  unfold remove_char. induction s as [|x s IH]; simpl; [reflexivity|].
  destruct (negb (x =? c)%N) eqn:Hx; simpl; rewrite ?Hx, IH; reflexivity.
Qed.

Lemma remove_char_spec c s x :
  In x (remove_char c s) <-> In x s /\ x <> c.
Proof.
  unfold remove_char. rewrite filter_In, negb_true_iff, N.eqb_neq.
  reflexivity.
Qed.

(** The rewrite under a failing completion model. *)
Lemma rewrite_fallback w user_phrase h :
  rewrite_failed (generation_call w (user_prompt_of user_phrase) h) = true ->
  exists p l,
    rewrite_prompt_with_qwen w user_phrase h
    = (Ret p, [EvGeneration (user_prompt_of user_phrase); EvLog l])
    /\ (p = fallback_non_ok user_phrase \/ p = fallback_exception user_phrase)
    /\ is_qwen_failure_log (EvLog l) = true.
Proof.
  unfold rewrite_prompt_with_qwen, try_except, bind, call, log, emit,
    subscript, raise, ret.
  destruct (generation_call w (user_prompt_of user_phrase) h)
    as [e|response]; simpl.
  - intros _. exists (fallback_exception user_phrase), (LogQwenException e).
    auto.
  - destruct (gen_status_code response =? 200); simpl; [discriminate|].
    intros _. exists (fallback_non_ok user_phrase), LogQwenError. auto.
Qed.

(** The rewrite always returns, after one call to the completion model. *)
Lemma rewrite_returns w user_phrase h :
  exists p rest,
    rewrite_prompt_with_qwen w user_phrase h
    = (Ret p, EvGeneration (user_prompt_of user_phrase) :: rest)
    /\ forallb is_prompt_event rest = true.
Proof.
  unfold rewrite_prompt_with_qwen, try_except, bind, call, log, emit,
    subscript, raise, ret.
  destruct (generation_call w (user_prompt_of user_phrase) h)
    as [e|response]; simpl; [eauto|].
  destruct (gen_status_code response =? 200); simpl; [|eauto].
  destruct (gen_text response); simpl; eauto.
Qed.

(** X8. When the completion model answers 200 with a text, the rewrite
    returns that text stripped and without any double quote, every other
    character kept in order (the second and third [replace] of line 62
    change nothing), and it logs nothing. *)
Theorem rewrite_success_removes_quotes w user_phrase h response text :
  generation_call w (user_prompt_of user_phrase) h = Answers response ->
  gen_status_code response = 200 ->
  gen_text response = Some text ->
  rewrite_prompt_with_qwen w user_phrase h
  = (Ret (remove_char quote (strip text)),
     [EvGeneration (user_prompt_of user_phrase)])
  /\ ~ In quote (remove_char quote (strip text))
  /\ (forall c, In c (remove_char quote (strip text))
                <-> In c (strip text) /\ c <> quote).
Proof.
  intros Hcall Hcode Htext.
  unfold rewrite_prompt_with_qwen, try_except, bind, call, log, emit,
    subscript, raise, ret.
  rewrite Hcall. simpl. rewrite Hcode, Htext. simpl.
  rewrite !remove_char_idempotent.
  split; [reflexivity|]. split.
  - intros Hin. apply remove_char_spec in Hin as [_ Hne]. congruence.
  - intros c. apply remove_char_spec.
Qed.

Lemma rewrite_success_removes_quotes_witness :
  rewrite_prompt_with_qwen w_quoted [0x8336%N] []
  = (Ret (lit "tea house"), [EvGeneration (user_prompt_of [0x8336%N])])
  /\ ~ In quote (lit "tea house").
Proof.
  destruct (@rewrite_success_removes_quotes w_quoted [0x8336%N] []
              {| gen_status_code := 200;
                 gen_text := Some (lit "  " ++ [quote] ++ lit "tea" ++ [quote]
                                   ++ lit " house  ") |}
              (lit "  " ++ [quote] ++ lit "tea" ++ [quote] ++ lit " house  ")
              eq_refl eq_refl eq_refl) as (H1 & H2 & _).
  split; [exact H1 | exact H2].
Defined.

(** X9. When the completion model answers 200 but the text of its output
    is [None], the call of [strip] on it at line 61 raises an attribute
    error, which the handler of line 66 catches like any exception: the
    rewrite returns the fallback of line 68, which contains the phrase, and
    logs the attribute error. *)
Theorem rewrite_missing_text_falls_back w user_phrase h response :
  generation_call w (user_prompt_of user_phrase) h = Answers response ->
  gen_status_code response = 200 ->
  gen_text response = None ->
  rewrite_prompt_with_qwen w user_phrase h
  = (Ret (fallback_exception user_phrase),
     [EvGeneration (user_prompt_of user_phrase);
      EvLog (LogQwenException AttributeError)])
  /\ substring user_phrase (fallback_exception user_phrase).
Proof.
  intros Hcall Hcode Htext.
  unfold rewrite_prompt_with_qwen, try_except, bind, call, log, emit,
    subscript, raise, ret.
  rewrite Hcall. simpl. rewrite Hcode, Htext. simpl.
  split; [reflexivity | apply substring_middle].
Qed.

Lemma rewrite_missing_text_falls_back_witness :
  rewrite_prompt_with_qwen w_no_text [0x8336%N] []
  = (Ret (fallback_exception [0x8336%N]),
     [EvGeneration (user_prompt_of [0x8336%N]);
      EvLog (LogQwenException AttributeError)])
  /\ substring [0x8336%N] (fallback_exception [0x8336%N]).
Proof.
  apply (@rewrite_missing_text_falls_back w_no_text [0x8336%N] []
           {| gen_status_code := 200; gen_text := None |});
    reflexivity.
Defined.

(** ** Stripping *)

Lemma lstrip_head s :
  lstrip s = [] \/ exists c r, lstrip s = c :: r /\ py_isspace c = false.
Proof.
  induction s as [|x s IH]; simpl; [auto|].
  destruct (py_isspace x) eqn:Hx; [exact IH|]. right. eauto.
Qed.

Lemma lstrip_snoc a c :
  py_isspace c = false -> exists t, lstrip (a ++ [c]) = t ++ [c].
Proof.
  intros Hc. induction a as [|x a IH]; simpl.
  - rewrite Hc. exists []. reflexivity.
  - destruct (py_isspace x); [exact IH|]. exists (x :: a). reflexivity.
Qed.

Lemma startswith_slash c r :
  startswith (c :: r) (lit "/") = (0x2f =? c)%N.
Proof.
  change (lit "/") with [0x2f%N]. cbn [startswith]. apply andb_true_r.
Qed.

(** The first character of the stripped text is the first one of the text
    that is not white space. *)
Lemma strip_head s :
  (lstrip s = [] /\ strip s = [])
  \/ exists c r r',
       lstrip s = c :: r /\ strip s = c :: r' /\ py_isspace c = false.
Proof.
  unfold strip. destruct (lstrip_head s) as [->|(c & r & -> & Hc)].
  - left. split; reflexivity.
  - right. simpl rev.
    destruct (lstrip_snoc (rev r) c Hc) as [t ->].
    exists c, r, (rev t). rewrite rev_app_distr. auto.
Qed.

(** ** The handler *)

(** Splits a goal on [enhanced_prompt_for] along its branches. *)
Ltac prompt_cases :=
  unfold enhanced_prompt_for, rewrite_prompt_with_qwen, strip_of, bind,
    try_except, call, send, log, emit, subscript, raise, ret;
  repeat (match goal with
          | |- context [if is_chinese ?t then _ else _] =>
              destruct (is_chinese t) eqn:?Hlang
          | |- context [match reply_text ?w ?m ?h with _ => _ end] =>
              destruct (reply_text w m h) eqn:?Hreply
          | |- context [match generation_call ?w ?p ?h with _ => _ end] =>
              destruct (generation_call w p h) eqn:?Hcall
          | |- context [if gen_status_code ?r =? 200 then _ else _] =>
              destruct (gen_status_code r =? 200) eqn:?Hcode
          | |- context [match gen_text ?r with _ => _ end] =>
              destruct (gen_text r) eqn:?Htext
          end; simpl).

Section Handler.

Variable w : World.

(** The choice of the prompt begins with the progress message and does
    nothing but send messages, call the completion model and log. *)
Lemma enhanced_prompt_events text h :
  exists delivered rest,
    snd (enhanced_prompt_for w text h)
    = EvReply (first_message text) delivered :: rest
    /\ forallb is_prompt_event rest = true.
Proof.
  unfold first_message. prompt_cases; eauto.
Qed.

(** When the progress message cannot be sent, nothing else is done. *)
Lemma enhanced_prompt_first_send_fails text h e :
  reply_text w (first_message text) h = Some e ->
  enhanced_prompt_for w text h
  = (Exc e, [EvReply (first_message text) false]).
Proof.
  unfold first_message. intros Hfail.
  unfold enhanced_prompt_for, bind, send.
  destruct (is_chinese text); rewrite Hfail; reflexivity.
Qed.

(** With a chat that works, the choice of the prompt returns. *)
Lemma enhanced_prompt_returns text h :
  (forall m h', reply_text w m h' = None) ->
  exists p ev, enhanced_prompt_for w text h = (Ret p, ev).
Proof.
  intros Hchat. prompt_cases; eauto.
  all: rewrite Hchat in *; discriminate.
Qed.

(** The delivery, by what the download, the photo and the removal do. *)
Lemma deliver_cases text enhanced_prompt img_url h :
  let caption :=
    if is_chinese text then CaptionCN text (firstn 200 enhanced_prompt)
    else CaptionEN text in
  exists ev,
    snd (deliver w text enhanced_prompt img_url h) = EvDownload img_url :: ev
    /\ ((download w img_url h = None
         /\ ev = [EvPhoto caption true; EvRemove; EvLog (LogImageSent text)]
         /\ fst (deliver w text enhanced_prompt img_url h) = Ret tt)
        \/ (exists e delivered,
              download w img_url h = None
              /\ ev = [EvPhoto caption true; EvRemove;
                       EvLog (LogSendException e);
                       EvReply (MsgSendFailed e) delivered])
        \/ (exists e delivered,
              download w img_url h = None
              /\ ev = [EvPhoto caption false; EvLog (LogSendException e);
                       EvReply (MsgSendFailed e) delivered])
        \/ (exists delivered,
              match download w img_url h with
              | Some e =>
                  ev = [EvLog (LogSendException e);
                        EvReply (MsgSendFailed e) delivered]
              | None => False
              end)).
Proof.
  cbv zeta.
  unfold deliver, try_except, bind, send, log, emit, ret.
  set (caption := if is_chinese text
                  then CaptionCN text (firstn 200 enhanced_prompt)
                  else CaptionEN text).
  clearbody caption.
  destruct (download w img_url h) as [e|] eqn:Hd; simpl.
  - destruct (reply_text w (MsgSendFailed e) _); simpl;
      eexists; (split; [reflexivity|]); do 3 right; eauto.
  - destruct (reply_photo w _ _) as [e|]; simpl.
    + destruct (reply_text w (MsgSendFailed e) _); simpl;
        eexists; (split; [reflexivity|]); right; right; left; eauto.
    + destruct (remove_file w _) as [e|]; simpl.
      * destruct (reply_text w (MsgSendFailed e) _); simpl;
          eexists; (split; [reflexivity|]); right; left; eauto.
      * eexists. split; [reflexivity|]. left. auto.
Qed.

(** With a chat that works, the delivery returns. *)
Lemma deliver_returns text enhanced_prompt img_url h :
  (forall m h', reply_text w m h' = None) ->
  exists ev, deliver w text enhanced_prompt img_url h = (Ret tt, ev).
Proof.
  intros Hchat.
  unfold deliver, try_except, bind, send, log, emit, ret.
  set (caption := if is_chinese text
                  then CaptionCN text (firstn 200 enhanced_prompt)
                  else CaptionEN text).
  clearbody caption.
  destruct (download w img_url h) as [e|]; simpl.
  - rewrite Hchat. eauto.
  - destruct (reply_photo w _ _) as [e|]; simpl; [rewrite Hchat; eauto|].
    destruct (remove_file w _) as [e|]; simpl; [rewrite Hchat|]; eauto.
Qed.

(** A message that is not ignored: the handler chooses the prompt, then
    generates, then reports the failure or delivers. *)
Lemma handle_message_kept message_text h p e1 v e2 :
  is_empty (strip message_text)
  || startswith (strip message_text) (lit "/") = false ->
  enhanced_prompt_for w (strip message_text) h = (Ret p, e1) ->
  generate_image_from_prompt w p (h ++ e1) = (Ret v, e2) ->
  handle_message w message_text h
  = (let (r, e3) :=
       (if falsy v then
          send (EvReply MsgGenerationFailed)
               (reply_text w MsgGenerationFailed)
        else
          match v with
          | Some url => deliver w (strip message_text) p url
          | None => ret tt
          end) ((h ++ e1) ++ e2) in
     (r, e1 ++ e2 ++ e3)).
Proof.
  intros Hkept Hp Hgen.
  unfold handle_message. cbv zeta. rewrite Hkept.
  unfold bind at 1. rewrite Hp. unfold bind at 1. rewrite Hgen.
  match goal with
  | |- _ = (let (_, _) := ?k in _) => destruct k as [r e3]
  end.
  reflexivity.
Qed.

End Handler.

(** Neither the choice of the prompt nor the generation downloads or sends
    a photo. *)
Lemma no_transfer_before_delivery (w : World) text p h h' :
  filter is_download (snd (enhanced_prompt_for w text h)) = []
  /\ filter is_photo (snd (enhanced_prompt_for w text h)) = []
  /\ filter is_download (snd (generate_image_from_prompt w p h')) = []
  /\ filter is_photo (snd (generate_image_from_prompt w p h')) = [].
Proof.
  destruct (enhanced_prompt_events w text h) as (b & rest & -> & Hrest).
  assert (Hgen : forall g : Event -> bool,
            (forall e, is_submit e = true -> g e = false) ->
            (forall id e, is_generation_event id e = true -> g e = false) ->
            filter g (snd (generate_image_from_prompt w p h')) = []).
  { intros g Hsub Hg.
    destruct (generate_events w p h')
      as [(l & -> & Hl)
         |(resp & id & rest' & _ & _ & _ & -> & Hrest')].
    - simpl. rewrite (Hsub (EvSubmit p) eq_refl).
      rewrite (Hg None (EvLog l)); [reflexivity|].
      destruct Hl as [->|[e ->]]; reflexivity.
    - simpl. rewrite (Hsub (EvSubmit p) eq_refl).
      apply (forallb_filter_nil _ _ _ (Hg id) Hrest'). }
  repeat split.
  - simpl. apply (forallb_filter_nil is_prompt_event); [|exact Hrest].
    intros [| | | |[]| | |[]|]; simpl; congruence.
  - simpl. apply (forallb_filter_nil is_prompt_event); [|exact Hrest].
    intros [| | | |[]| | |[]|]; simpl; congruence.
  - apply Hgen; [intros []; simpl; congruence|].
    intros id [| | | |[]| | |[]|]; unfold is_generation_event; simpl;
      congruence.
  - apply Hgen; [intros []; simpl; congruence|].
    intros id [| | | |[]| | |[]|]; unfold is_generation_event; simpl;
      congruence.
Qed.

(* ================================================================== *)
(** ** The handler, results *)

(** X10. The handler ignores a message, returning at once with no effect,
    exactly when its text is all white space (or empty) or its first
    character that is not white space is ['/']. Any other message makes the
    handler begin with a send to the chat: its first effect is the progress
    message for the stripped text, delivered or not. *)
Theorem ignored_iff_blank_or_command w message_text h :
  (handle_message w message_text h = (Ret tt, [])
   <-> (lstrip message_text = []
        \/ exists rest, lstrip message_text = 0x2f%N :: rest))
  /\ (~ (lstrip message_text = []
         \/ exists rest, lstrip message_text = 0x2f%N :: rest) ->
      exists delivered rest,
        snd (handle_message w message_text h)
        = EvReply (first_message (strip message_text)) delivered :: rest).
Proof.
  destruct (strip_head message_text)
    as [[Hl Hs]|(c & r & r' & Hl & Hs & Hc)].
  - split; [|intros Hn; exfalso; auto].
    split; [auto|]. intros _. unfold handle_message. rewrite Hs. reflexivity.
  - destruct (N.eqb_spec 0x2f c) as [<-|Hne].
    + split; [|intros Hn; exfalso; eauto].
      split; [eauto|]. intros _. unfold handle_message. rewrite Hs.
      unfold lit. simpl. reflexivity.
    + assert (Hfirst : exists delivered rest,
                snd (handle_message w message_text h)
                = EvReply (first_message (strip message_text)) delivered
                  :: rest).
      { unfold handle_message. rewrite Hs. cbv zeta.
        replace (is_empty (c :: r') || startswith (c :: r') (lit "/"))
          with false.
        2:{ rewrite startswith_slash. apply N.eqb_neq in Hne.
            rewrite Hne. reflexivity. }
        destruct (bind_events_prefix (enhanced_prompt_for w (c :: r'))
                    (fun enhanced_prompt =>
                       img_url <- generate_image_from_prompt w enhanced_prompt ;;
                       (if falsy img_url
                        then send (EvReply MsgGenerationFailed)
                               (reply_text w MsgGenerationFailed)
                        else match img_url with
                             | Some url => deliver w (c :: r') enhanced_prompt url
                             | None => ret tt
                             end)) h) as [rest Hrest].
        rewrite Hrest.
        destruct (enhanced_prompt_events w (c :: r') h) as (b & rest' & He & _).
        rewrite He. simpl. eauto. }
      split; [|intros _; exact Hfirst].
      split.
      * intros Hrun. exfalso.
        destruct Hfirst as (b & rest & Hfirst).
        rewrite Hrun in Hfirst. discriminate Hfirst.
      * intros [Hnil|[rest Hrest]]; rewrite Hl in *; congruence.
Qed.

Lemma ignored_iff_blank_or_command_witness :
  (lstrip (lit "   ") = []
   /\ handle_message w_pending (lit "   ") [] = (Ret tt, []))
  /\ exists delivered rest,
       snd (handle_message w_pending (lit "  a cat ") [])
       = EvReply (MsgGeneratingEN (lit "a cat")) delivered :: rest.
Proof.
  assert (H : lstrip (lit "   ") = []) by reflexivity.
  split.
  - split; [exact H|].
    apply (ignored_iff_blank_or_command w_pending (lit "   ") []).
    left. exact H.
  - apply (ignored_iff_blank_or_command w_pending (lit "  a cat ") []).
    intros [Hn|[rest Hn]]; vm_compute in Hn; discriminate Hn.
Defined.

(** X11. No exception escapes the handler unless a send to the chat raises:
    when every [reply_text] goes through, the handler returns, whatever the
    completion model, the image service, the download, the photo send and
    the removal of the temporary file do. *)
Theorem handler_returns_when_chat_works w message_text h :
  (forall m h', reply_text w m h' = None) ->
  exists ev, handle_message w message_text h = (Ret tt, ev).
Proof.
  intros Hchat.
  destruct (is_empty (strip message_text)
            || startswith (strip message_text) (lit "/")) eqn:Hkept.
  - unfold handle_message. cbv zeta. rewrite Hkept. eexists. reflexivity.
  - destruct (enhanced_prompt_returns w (strip message_text) h Hchat)
      as (p & e1 & Hp).
    destruct (generate_returns w p (h ++ e1)) as (v & e2 & Hgen).
    rewrite (handle_message_kept w message_text h Hkept Hp Hgen).
    destruct (falsy v) eqn:Hv.
    + unfold send. rewrite Hchat. eexists. reflexivity.
    + destruct v as [url|]; [|discriminate Hv].
      destruct (deliver_returns w (strip message_text) p url
                  ((h ++ e1) ++ e2) Hchat) as (e3 & ->).
      eexists. reflexivity.
Qed.

Lemma handler_returns_when_chat_works_witness :
  (forall m h', reply_text w_download_down m h' = None)
  /\ exists ev, handle_message w_download_down (lit "a cat") [] = (Ret tt, ev).
Proof.
  assert (H : forall m h', reply_text w_download_down m h' = None)
    by reflexivity.
  split; [exact H|].
  apply (handler_returns_when_chat_works w_download_down (lit "a cat") []).
  exact H.
Defined.

(** X12. When the first progress message of a message that is not ignored
    cannot be sent, the handler raises that exception and does nothing else:
    no completion call, no submission. *)
Theorem first_send_failure_stops_handler w message_text h e :
  is_empty (strip message_text)
  || startswith (strip message_text) (lit "/") = false ->
  reply_text w (first_message (strip message_text)) h = Some e ->
  handle_message w message_text h
  = (Exc e, [EvReply (first_message (strip message_text)) false]).
Proof.
  intros Hkept Hfail.
  unfold handle_message. cbv zeta. rewrite Hkept.
  unfold bind at 1.
  rewrite (enhanced_prompt_first_send_fails w (strip message_text) h Hfail).
  reflexivity.
Qed.

Lemma first_send_failure_stops_handler_witness :
  handle_message w_chat_down (lit " a cat ") []
  = (Exc (RemoteError (lit "chat closed")),
     [EvReply (MsgGeneratingEN (lit "a cat")) false]).
Proof.
  apply (@first_send_failure_stops_handler w_chat_down (lit " a cat ") []
           (RemoteError (lit "chat closed")));
    reflexivity.
Defined.

(** X13. When the generation returns [None] or an empty URL, the handler
    ends by sending the failure message; nothing is downloaded and no photo
    is sent. *)
Theorem failed_generation_is_reported w message_text h p e1 v e2 :
  is_empty (strip message_text)
  || startswith (strip message_text) (lit "/") = false ->
  enhanced_prompt_for w (strip message_text) h = (Ret p, e1) ->
  generate_image_from_prompt w p (h ++ e1) = (Ret v, e2) ->
  falsy v = true ->
  exists delivered,
    snd (handle_message w message_text h)
    = e1 ++ e2 ++ [EvReply MsgGenerationFailed delivered]
    /\ filter is_download (snd (handle_message w message_text h)) = []
    /\ filter is_photo (snd (handle_message w message_text h)) = [].
Proof.
  intros Hkept Hp Hgen Hv.
  rewrite (handle_message_kept w message_text h Hkept Hp Hgen), Hv.
  destruct (no_transfer_before_delivery w (strip message_text) p h (h ++ e1))
    as (Hd1 & Hp1 & Hd2 & Hp2).
  rewrite Hp in Hd1, Hp1. rewrite Hgen in Hd2, Hp2. cbn [snd] in *.
  unfold send.
  destruct (reply_text w MsgGenerationFailed _);
    [exists false | exists true]; cbn [snd];
    rewrite !filter_app, Hd1, Hp1, Hd2, Hp2; auto.
Qed.

Lemma failed_generation_is_reported_witness :
  exists delivered,
    snd (handle_message w_empty_url (lit "a cat") [])
    = snd (enhanced_prompt_for w_empty_url (lit "a cat") [])
      ++ snd (generate_image_from_prompt w_empty_url (lit "a cat")
                (snd (enhanced_prompt_for w_empty_url (lit "a cat") [])))
      ++ [EvReply MsgGenerationFailed delivered]
    /\ filter is_download (snd (handle_message w_empty_url (lit "a cat") []))
       = []
    /\ filter is_photo (snd (handle_message w_empty_url (lit "a cat") []))
       = [].
Proof.
  apply (@failed_generation_is_reported w_empty_url (lit "a cat") []
           (lit "a cat") _ (Some []) _);
    [reflexivity | vm_compute; reflexivity | vm_compute; reflexivity
    | reflexivity].
Defined.

(** X14. When the generation returns a URL that is not empty, the next thing
    the handler does is download that very URL, and it downloads nothing
    else. If the download raises, no photo is sent: the exception is logged
    and the failure message carrying it is sent. *)
Theorem returned_url_is_downloaded w message_text h p e1 u e2 :
  is_empty (strip message_text)
  || startswith (strip message_text) (lit "/") = false ->
  enhanced_prompt_for w (strip message_text) h = (Ret p, e1) ->
  generate_image_from_prompt w p (h ++ e1) = (Ret (Some u), e2) ->
  is_empty u = false ->
  exists e3,
    snd (handle_message w message_text h) = e1 ++ e2 ++ EvDownload u :: e3
    /\ filter is_download (e1 ++ e2 ++ e3) = []
    /\ (forall e,
          download w u ((h ++ e1) ++ e2) = Some e ->
          exists delivered,
            e3 = [EvLog (LogSendException e);
                  EvReply (MsgSendFailed e) delivered]).
Proof.
  intros Hkept Hp Hgen Hu.
  rewrite (handle_message_kept w message_text h Hkept Hp Hgen).
  unfold falsy. rewrite Hu.
  destruct (no_transfer_before_delivery w (strip message_text) p h (h ++ e1))
    as (Hd1 & _ & Hd2 & _).
  rewrite Hp in Hd1. rewrite Hgen in Hd2. cbn [snd] in *.
  destruct (deliver_cases w (strip message_text) p u ((h ++ e1) ++ e2))
    as (e3 & He3 & Hcases).
  destruct (deliver w (strip message_text) p u ((h ++ e1) ++ e2))
    as [r ev]. cbn [fst snd] in *. subst ev.
  exists e3. split; [reflexivity|].
  rewrite !filter_app, Hd1, Hd2.
  destruct Hcases
    as [(Hd & -> & _)|[(e & b & Hd & ->)|[(e & b & Hd & ->)|[b Hcase]]]].
  - rewrite Hd. split; [reflexivity|]. discriminate.
  - rewrite Hd. split; [reflexivity|]. discriminate.
  - rewrite Hd. split; [reflexivity|]. discriminate.
  - destruct (download w u ((h ++ e1) ++ e2)) as [e|]; [|destruct Hcase].
    subst e3. split; [reflexivity|].
    intros e' He'. injection He' as <-. eauto.
Qed.

Lemma returned_url_is_downloaded_witness :
  exists e3,
    snd (handle_message w_download_down (lit "a cat") [])
    = snd (enhanced_prompt_for w_download_down (lit "a cat") [])
      ++ snd (generate_image_from_prompt w_download_down (lit "a cat")
                (snd (enhanced_prompt_for w_download_down (lit "a cat") [])))
      ++ EvDownload (lit "https://img/1.png") :: e3
    /\ filter is_download
         (snd (enhanced_prompt_for w_download_down (lit "a cat") [])
          ++ snd (generate_image_from_prompt w_download_down (lit "a cat")
                    (snd (enhanced_prompt_for w_download_down (lit "a cat")
                            [])))
          ++ e3) = []
    /\ exists delivered,
         e3 = [EvLog (LogSendException (RemoteError (lit "404")));
               EvReply (MsgSendFailed (RemoteError (lit "404"))) delivered].
Proof.
  destruct (@returned_url_is_downloaded w_download_down (lit "a cat") []
              (lit "a cat") _ (lit "https://img/1.png") _
              eq_refl eq_refl eq_refl eq_refl) as (e3 & H1 & H2 & H3).
  exists e3. split; [exact H1|]. split; [exact H2|].
  apply (H3 (RemoteError (lit "404"))). reflexivity.
Defined.

(** X15. The delivery sends at most one photo. Its caption is the English
    one with the text, or, for a Chinese text, the Chinese one with the text
    and the first 200 code points of the prompt: a prefix of the prompt, never
    longer than 200. *)
Theorem photo_caption_bounded w text enhanced_prompt img_url h :
  (List.length
     (filter is_photo (snd (deliver w text enhanced_prompt img_url h)))
   <= 1)%nat
  /\ forall c delivered,
       In (EvPhoto c delivered)
          (snd (deliver w text enhanced_prompt img_url h)) ->
       match c with
       | CaptionCN t scene =>
           is_chinese text = true /\ t = text
           /\ (List.length scene <= 200)%nat
           /\ exists rest, enhanced_prompt = scene ++ rest
       | CaptionEN t => is_chinese text = false /\ t = text
       end.
Proof.
  destruct (deliver_cases w text enhanced_prompt img_url h)
    as (ev & -> & Hcases).
  cbv zeta in Hcases.
  assert (Hcap : match (if is_chinese text
                        then CaptionCN text (firstn 200 enhanced_prompt)
                        else CaptionEN text) with
                 | CaptionCN t scene =>
                     is_chinese text = true /\ t = text
                     /\ (List.length scene <= 200)%nat
                     /\ exists rest, enhanced_prompt = scene ++ rest
                 | CaptionEN t => is_chinese text = false /\ t = text
                 end).
  { destruct (is_chinese text); [|auto].
    repeat split; [apply firstn_le_length|].
    exists (skipn 200 enhanced_prompt). symmetry. apply firstn_skipn. }
  destruct Hcases
    as [(_ & -> & _)|[(e & b & _ & ->)|[(e & b & _ & ->)|[b Hcase]]]].
  - split; [simpl; lia|].
    intros c b [Hin|[Hin|[Hin|[Hin|[]]]]]; try discriminate Hin.
    injection Hin as <- _. exact Hcap.
  - split; [simpl; lia|].
    intros c b' [Hin|[Hin|[Hin|[Hin|[Hin|[]]]]]]; try discriminate Hin.
    injection Hin as <- _. exact Hcap.
  - split; [simpl; lia|].
    intros c b' [Hin|[Hin|[Hin|[Hin|[]]]]]; try discriminate Hin.
    injection Hin as <- _. exact Hcap.
  - destruct (download w img_url h) as [e|]; [|destruct Hcase]. subst ev.
    split; [simpl; lia|].
    intros c b' [Hin|[Hin|[Hin|[]]]]; discriminate Hin.
Qed.

Lemma photo_caption_bounded_witness :
  In (EvPhoto (CaptionCN [0x8336%N] (firstn 200 (repeat 0x8336%N 300))) true)
     (snd (deliver w_pending [0x8336%N] (repeat 0x8336%N 300)
             (lit "https://img/1.png") []))
  /\ (List.length (firstn 200 (repeat 0x8336%N 300)) <= 200)%nat.
Proof.
  assert (H : In (EvPhoto (CaptionCN [0x8336%N]
                             (firstn 200 (repeat 0x8336%N 300))) true)
                (snd (deliver w_pending [0x8336%N] (repeat 0x8336%N 300)
                        (lit "https://img/1.png") []))).
  { right. left. reflexivity. }
  split; [exact H|].
  destruct (photo_caption_bounded w_pending [0x8336%N] (repeat 0x8336%N 300)
              (lit "https://img/1.png") []) as [_ Hc].
  apply (Hc _ _ H).
Defined.

(** X16. When the completion model fails on a Chinese message and the chat
    works, the handler still goes on to the image: it sends the first
    progress message, calls the model once, logs the failure and the
    fallback prompt, sends the second progress message, and submits the
    fallback prompt, which contains the text of the message. *)
Theorem chinese_message_degrades_to_fallback w message_text h :
  is_empty (strip message_text)
  || startswith (strip message_text) (lit "/") = false ->
  is_chinese (strip message_text) = true ->
  (forall m h', reply_text w m h' = None) ->
  (forall h', rewrite_failed
                (generation_call w (user_prompt_of (strip message_text)) h')
              = true) ->
  exists l p rest,
    snd (handle_message w message_text h)
    = EvReply (MsgUnderstanding (strip message_text)) true
      :: EvGeneration (user_prompt_of (strip message_text))
      :: EvLog l :: EvLog (LogEnhanced p)
      :: EvReply MsgGeneratingCN true :: EvSubmit p :: rest
    /\ is_qwen_failure_log (EvLog l) = true
    /\ substring (strip message_text) p.
Proof.
  intros Hkept Hlang Hchat Hdown.
  set (text := strip message_text) in *.
  destruct (rewrite_fallback w text
              (h ++ [EvReply (MsgUnderstanding text) true]) (Hdown _))
    as (p & l & Hrw & Hp & Hl).
  assert (He : enhanced_prompt_for w text h
               = (Ret p, [EvReply (MsgUnderstanding text) true;
                          EvGeneration (user_prompt_of text); EvLog l;
                          EvLog (LogEnhanced p);
                          EvReply MsgGeneratingCN true])).
  { unfold enhanced_prompt_for. rewrite Hlang.
    unfold bind at 1. unfold send at 1. rewrite Hchat.
    unfold bind at 1. rewrite Hrw.
    unfold bind, send, log, emit, ret. rewrite Hchat. reflexivity. }
  destruct (generate_returns w p
              (h ++ [EvReply (MsgUnderstanding text) true;
                     EvGeneration (user_prompt_of text); EvLog l;
                     EvLog (LogEnhanced p); EvReply MsgGeneratingCN true]))
    as (v & e2 & Hgen).
  destruct (generate_first_event w p
              (h ++ [EvReply (MsgUnderstanding text) true;
                     EvGeneration (user_prompt_of text); EvLog l;
                     EvLog (LogEnhanced p); EvReply MsgGeneratingCN true]))
    as (r & rest & Hfirst).
  rewrite Hgen in Hfirst. injection Hfirst as _ ->.
  rewrite (handle_message_kept w message_text h Hkept He Hgen).
  match goal with
  | |- context [let (_, _) := ?k in _] => destruct k as [r' e3]
  end.
  exists l, p, (rest ++ e3). cbn [snd]. split; [reflexivity|].
  split; [exact Hl|].
  destruct Hp as [->| ->]; apply substring_middle.
Qed.

Lemma chinese_message_degrades_to_fallback_witness :
  exists l p rest,
    snd (handle_message w_pending [0x20%N; 0x8336%N] [])
    = EvReply (MsgUnderstanding [0x8336%N]) true
      :: EvGeneration (user_prompt_of [0x8336%N])
      :: EvLog l :: EvLog (LogEnhanced p)
      :: EvReply MsgGeneratingCN true :: EvSubmit p :: rest
    /\ is_qwen_failure_log (EvLog l) = true
    /\ substring [0x8336%N] p.
Proof.
  apply (chinese_message_degrades_to_fallback w_pending
           [0x20%N; 0x8336%N] []);
    reflexivity.
Defined.

(* ================================================================== *)
(** ** The moment of the slow-queue notice *)

Section PendingQueue.

Variable w : World.

(** A turn whose fetch reports [PENDING], with a chat that takes the
    notice. *)
Lemma poll_body_pending id st h :
  observes (lit "PENDING") (fetch w id (h ++ [EvSleep poll_interval])) ->
  (forall h', reply_text w MsgSlowQueue h' = None) ->
  exists st' ev,
    poll_body w id st h = (Ret (Continue st'), ev)
    /\ elapsed st' = elapsed st + poll_interval
    /\ forall t0,
         if (30 <=? elapsed st + poll_interval) && negb (notification_sent st)
         then notification_sent st' = true
              /\ notice_times t0 ev = [elapsed st + poll_interval]
              /\ slow_sends ev = [true]
         else notification_sent st' = notification_sent st
              /\ notice_times t0 ev = []
              /\ slow_sends ev = [].
Proof.
  unfold observes.
  destruct (fetch w id (h ++ [EvSleep poll_interval])) as [e|r] eqn:Hf;
    [tauto|].
  intros [Hc Hts] Hchat.
  unfold poll_body, bind, try_except, call, send, log, emit, ret.
  rewrite Hf. simpl. rewrite Hc. simpl.
  unfold get_default. rewrite Hts.
  change (str_eqb (lit "PENDING") (lit "PENDING")) with true.
  change (str_eqb (lit "PENDING") (lit "SUCCEEDED")) with false.
  change (str_eqb (lit "PENDING") (lit "FAILED")) with false.
  rewrite andb_true_r.
  destruct (opt_str_eqb _ _); simpl;
    destruct ((30 <=? elapsed st + poll_interval)
              && negb (notification_sent st)); simpl;
    rewrite ?Hchat; simpl; eauto 10.
Qed.

(** From [elapsed] = 4k, k at most 7, and the flag not set, the loop sends
    the notice once, after the fetch at 32 seconds. *)
Lemma poll_loop_pending fuel id st h t0 :
  (forall h', observes (lit "PENDING") (fetch w id h')) ->
  (forall h', reply_text w MsgSlowQueue h' = None) ->
  match fst (poll_loop w fuel id st h) with
  | NoFuel => True
  | _ =>
      (notification_sent st = true ->
       notice_times t0 (snd (poll_loop w fuel id st h)) = []
       /\ slow_sends (snd (poll_loop w fuel id st h)) = [])
      /\ (notification_sent st = false ->
          forall k, elapsed st = poll_interval * Z.of_nat k -> (k <= 7)%nat ->
                    notice_times t0 (snd (poll_loop w fuel id st h)) = [32]
                    /\ slow_sends (snd (poll_loop w fuel id st h)) = [true])
  end.
Proof.
  intros Hpending Hchat. revert t0.
  apply (@poll_loop_induction w id
           (fun st x ev => forall t0,
              match x with
              | NoFuel => True
              | _ =>
                  (notification_sent st = true ->
                   notice_times t0 ev = [] /\ slow_sends ev = [])
                  /\ (notification_sent st = false ->
                      forall k, elapsed st = poll_interval * Z.of_nat k ->
                                (k <= 7)%nat ->
                                notice_times t0 ev = [32]
                                /\ slow_sends ev = [true])
              end)).
  - intros st0 Hge t0. split; [auto|].
    intros _ k Hk Hle. unfold max_wait, poll_interval in *. lia.
  - intros st0 t0. exact I.
  - intros st0 h0 v ev _ Hbody.
    destruct (poll_body_pending id st0 h0 (Hpending _) Hchat)
      as (st' & ev0 & H & _).
    congruence.
  - intros st0 h0 e ev _ Hbody.
    destruct (poll_body_pending id st0 h0 (Hpending _) Hchat)
      as (st' & ev0 & H & _).
    congruence.
  - intros st0 h0 st' ev x ev' _ Hbody IH t0.
    destruct (poll_body_pending id st0 h0 (Hpending _) Hchat)
      as (st1 & ev0 & H & Hel & Hturn).
    rewrite Hbody in H. injection H as <- <-.
    pose proof (poll_body_counts w id st0 h0) as Hcnt.
    rewrite Hbody in Hcnt. destruct Hcnt as (_ & _ & Hp).
    specialize (Hturn t0).
    specialize (IH (last (poll_times ev) t0)).
    destruct x as [x'|e|]; [| |exact I];
      destruct IH as [IHset IHunset];
      rewrite notice_times_app, slow_sends_app.
    all: split.
    1,3: intros Hflag; rewrite Hflag in Hturn; cbn [negb] in Hturn;
      rewrite andb_false_r in Hturn;
      destruct Hturn as (Hflag' & -> & ->);
      destruct (IHset Hflag') as [-> ->]; split; reflexivity.
    all: intros Hflag k Hk Hle; rewrite Hflag in Hturn; cbn [negb] in Hturn;
      rewrite andb_true_r in Hturn;
      destruct (Z.leb_spec 30 (elapsed st0 + poll_interval)) as [H30|H30];
      [ destruct Hturn as (Hflag' & -> & ->);
        destruct (IHset Hflag') as [-> ->];
        unfold poll_interval in *; cbn [app]; split;
        [f_equal; lia | reflexivity]
      | destruct Hturn as (Hflag' & -> & ->);
        apply (IHunset Hflag' (S k));
        unfold poll_interval in *; lia ].
Qed.

End PendingQueue.

(** X17. When every fetch reports [PENDING] and the chat takes the notice,
    the slow-queue notice is sent exactly once in the generation, right
    after the fetch at 32 seconds: the first poll at or past 30 seconds. *)
Theorem notice_once_at_32_seconds w prompt h resp id :
  async_call w prompt h = Answers resp ->
  sub_status_code resp = 200 ->
  sub_task_id resp = id ->
  (forall h', observes (lit "PENDING") (fetch w id h')) ->
  (forall h', reply_text w MsgSlowQueue h' = None) ->
  notice_times 0 (snd (generate_image_from_prompt w prompt h)) = [32]
  /\ slow_sends (snd (generate_image_from_prompt w prompt h)) = [true].
Proof.
  intros Hs Hc Hid Hpending Hchat.
  destruct (generate_shape w prompt h Hs Hc Hid)
    as (x & lev & tail & v & Hloop & Heq & Htail).
  pose proof (@poll_loop_pending w (Z.to_nat max_wait) id job_start
                (h ++ [EvSubmit prompt; EvLog (LogTaskCreated id)]) 0
                Hpending Hchat) as H.
  rewrite Hloop in H. cbn [fst snd] in H.
  assert (Hlev : notice_times 0 lev = [32] /\ slow_sends lev = [true]).
  { destruct Htail as [[-> _]|[(st & -> & _)|(e & -> & _)]];
      apply (proj2 H eq_refl 0%nat); try reflexivity; lia. }
  destruct Hlev as [Hn Hsl].
  rewrite Heq. cbn [snd app notice_times slow_sends].
  rewrite notice_times_app, slow_sends_app, Hn, Hsl.
  destruct Htail as [[_ ->]|[(st & _ & _ & [->|[e ->]])|(e & _ & _ & ->)]];
    split; reflexivity.
Qed.

Lemma notice_once_at_32_seconds_witness :
  (forall h', observes (lit "PENDING") (fetch w_pending (Some (lit "t1")) h'))
  /\ notice_times 0
       (snd (generate_image_from_prompt w_pending (lit "a cat") [])) = [32]
  /\ slow_sends (snd (generate_image_from_prompt w_pending (lit "a cat") []))
     = [true].
Proof.
  assert (H : forall h',
            observes (lit "PENDING") (fetch w_pending (Some (lit "t1")) h')).
  { intros h'. simpl. destruct (fetches h'); split; reflexivity. }
  split; [exact H|].
  apply (@notice_once_at_32_seconds w_pending (lit "a cat") []
           {| sub_status_code := 200; sub_task_id := Some (lit "t1") |}
           (Some (lit "t1")));
    [reflexivity | reflexivity | reflexivity | exact H | reflexivity].
Defined.

(* ================================================================== *)
(** ** The removal of the temporary file *)

(** X18. When the image was downloaded and the photo sent, and the removal
    of the temporary file (line 183) then raises, the exception is handled
    like a failed send: after the photo, the handler of line 185 logs the
    exception and sends the failure message carrying it, and the record of
    an image sent is not logged. The delivery raises only if that last
    message does. *)
Theorem removal_failure_reported_after_photo
    w text enhanced_prompt img_url h e :
  let caption :=
    if is_chinese text then CaptionCN text (firstn 200 enhanced_prompt)
    else CaptionEN text in
  download w img_url h = None ->
  reply_photo w caption (h ++ [EvDownload img_url]) = None ->
  remove_file w (h ++ [EvDownload img_url; EvPhoto caption true])
  = Some e ->
  deliver w text enhanced_prompt img_url h
  = (match reply_text w (MsgSendFailed e)
             (h ++ [EvDownload img_url; EvPhoto caption true; EvRemove;
                    EvLog (LogSendException e)]) with
     | None => Ret tt
     | Some e' => Exc e'
     end,
     [EvDownload img_url; EvPhoto caption true; EvRemove;
      EvLog (LogSendException e);
      EvReply (MsgSendFailed e)
        match reply_text w (MsgSendFailed e)
                (h ++ [EvDownload img_url; EvPhoto caption true; EvRemove;
                       EvLog (LogSendException e)]) with
        | None => true
        | Some _ => false
        end]).
Proof.
  cbv zeta.
  set (caption := if is_chinese text
                  then CaptionCN text (firstn 200 enhanced_prompt)
                  else CaptionEN text).
  intros Hd Hp Hr.
  unfold deliver, try_except, bind, send, log, emit, ret.
  fold caption. rewrite Hd. simpl. rewrite Hp. simpl.
  rewrite <- !app_assoc. simpl. rewrite Hr. simpl.
  rewrite <- !app_assoc. simpl.
  destruct (reply_text w (MsgSendFailed e) _); reflexivity.
Qed.

Lemma removal_failure_reported_after_photo_witness :
  deliver w_remove_down (lit "a cat") (lit "a cat") (lit "https://img/1.png")
    []
  = (Ret tt,
     [EvDownload (lit "https://img/1.png");
      EvPhoto (CaptionEN (lit "a cat")) true;
      EvRemove;
      EvLog (LogSendException (RemoteError (lit "permission denied")));
      EvReply (MsgSendFailed (RemoteError (lit "permission denied"))) true]).
Proof.
  apply (@removal_failure_reported_after_photo w_remove_down (lit "a cat")
           (lit "a cat") (lit "https://img/1.png") []
           (RemoteError (lit "permission denied")));
    reflexivity.
Defined.

(* ================================================================== *)
(** ** The outcome of a generation *)

Section Outcome.

Variable w : World.




End Outcome.


